(** * WARG Ground Station: telemetry link layer

    A shallow embedding of the JavaScript sources
    - [app/util/Validator.js]            (module [Validator])
    - [models/TelemetryData]             (module [TelemetryData])
    - [app/connections/DataRelay.js]     (module [DataRelay])
    - the picpilot command sender        (module [Commands])
    over a small model of the JavaScript values, strings and regular
    expressions they use (module [JS]) and of the [ip] package (module [Ip]),
    together with the properties of the telemetry link specification that
    are settled against them. *)

From Stdlib Require Import ZArith NArith QArith Bool List String Ascii Lia.
From Stdlib Require Import DecimalString.
From stdpp Require Import base option list gmap.

Set Default Proof Using "Type".
Local Open Scope N_scope.

(** ** JavaScript data *)

Module JS.

(** A JavaScript string is a sequence of UTF-16 code units. *)
Definition code_unit := N.
Definition jstring := list code_unit.

(** Literals: every character of a Rocq string is one code unit. *)
Fixpoint js (s : string) : jstring :=
  match s with
  | EmptyString => []
  | String a r => N_of_ascii a :: js r
  end.

Definition comma : code_unit := 44.

(** ECMAScript [WhiteSpace] and [LineTerminator] code units, the ones
    [String.prototype.trim] removes. *)
Definition is_white (c : code_unit) : bool :=
  (9 <=? c) && (c <=? 13)
  || (c =? 32) || (c =? 160) || (c =? 5760)
  || (8192 <=? c) && (c <=? 8202)
  || (c =? 8232) || (c =? 8233) || (c =? 8239) || (c =? 8287)
  || (c =? 12288) || (c =? 65279).

Fixpoint trim_start (s : jstring) : jstring :=
  match s with
  | [] => []
  | c :: r => if is_white c then trim_start r else s
  end.

Definition trim_end (s : jstring) : jstring := rev (trim_start (rev s)).

(** [str.trim()] *)
Definition trim (s : jstring) : jstring := trim_end (trim_start s).

(** [str.split(sep)] for a separator of one code unit: the result always has
    at least one element ([''.split(',')] is [['']]). *)
Fixpoint split (sep : code_unit) (s : jstring) : list jstring :=
  match s with
  | [] => [[]]
  | c :: r =>
      if c =? sep then [] :: split sep r
      else match split sep r with
           | [] => [[c]]
           | t :: ts => (c :: t) :: ts
           end
  end.

(** [arr.join(sep)] on strings. *)
Fixpoint join (sep : code_unit) (l : list jstring) : jstring :=
  match l with
  | [] => []
  | [t] => t
  | t :: ts => t ++ sep :: join sep ts
  end.

(** A JavaScript number. Every IEEE double is NaN, an infinity or a rational;
    the code below only compares numbers, and comparison of doubles is
    comparison of their exact values (-0 equals 0). *)
Inductive number :=
| NaN
| NegInf
| PosInf
| Fin (q : Q).

Definition is_nan (n : number) : bool :=
  match n with NaN => true | _ => false end.

(** [a <= b] on numbers: false as soon as one side is NaN. *)
Definition num_le (a b : number) : bool :=
  match a, b with
  | NaN, _ | _, NaN => false
  | NegInf, _ => true
  | _, PosInf => true
  | PosInf, _ => false
  | Fin _, NegInf => false
  | Fin p, Fin q => Qle_bool p q
  end.

(** [a >= b] *)
Definition num_ge (a b : number) : bool := num_le b a.

Definition num_of_Z (z : Z) : number := Fin (inject_Z z).

(** The values the modelled functions receive: the primitive values and Node's
    [Buffer] (the chunk type of a socket without an encoding). *)
Inductive jsval :=
| VUndefined
| VNull
| VBool (b : bool)
| VNum (n : number)
| VStr (s : jstring)
| VBuffer (bytes : list N).

(** Conversions that belong to the JavaScript runtime. [StringToNumber] is
    the [StringNumericLiteral] grammar with its rounding to a double,
    [NumberToString] is [Number::toString], [BufferToString] is
    [Buffer.prototype.toString()] (UTF-8 decoding). ECMAScript fixes the value
    of the empty literal: [Number('')] is [+0]. *)
Class Runtime := {
  StringToNumber : jstring -> number;
  NumberToString : number -> jstring;
  BufferToString : list N -> jstring;
  StringToNumber_empty : StringToNumber [] = Fin 0
}.

Section Conversions.
Context `{Runtime}.

(** [ToBoolean]: what [if (v)] and [!v] test. *)
Definition truthy (v : jsval) : bool :=
  match v with
  | VUndefined | VNull => false
  | VBool b => b
  | VNum NaN => false
  | VNum (Fin q) => negb (Qeq_bool q 0)
  | VNum _ => true
  | VStr s => negb (Nat.eqb (length s) 0)
  | VBuffer _ => true
  end.

(** [Number(v)] *)
Definition ToNumber (v : jsval) : number :=
  match v with
  | VUndefined => NaN
  | VNull => Fin 0
  | VBool true => Fin 1
  | VBool false => Fin 0
  | VNum n => n
  | VStr s => StringToNumber s
  | VBuffer b => StringToNumber (BufferToString b)
  end.

(** [isNaN(v)] *)
Definition isNaN (v : jsval) : bool := is_nan (ToNumber v).

(** [String(v)], which is also ['' + v]; for the values that have the
    method it is [v.toString()]. *)
Definition ToString (v : jsval) : jstring :=
  match v with
  | VUndefined => js "undefined"
  | VNull => js "null"
  | VBool true => js "true"
  | VBool false => js "false"
  | VNum n => NumberToString n
  | VStr s => s
  | VBuffer b => BufferToString b
  end.

(** [a && b]: the first operand when it is falsy, else the second. *)
Definition js_and (a b : jsval) : jsval := if truthy a then b else a.
End Conversions.

(** What a call produces: a normal completion or a thrown exception, each with
    the state reached. *)
Inductive exn :=
| TypeError (msg : jstring)
| ReferenceError (msg : jstring)
| Raised (v : jsval).

Inductive outcome (S : Type) :=
| Returned (s : S)
| Threw (e : exn) (s : S).
Arguments Returned {S} s.
Arguments Threw {S} e s.

Definition state_of {S} (o : outcome S) : S :=
  match o with Returned s => s | Threw _ s => s end.

Definition returned {S} (o : outcome S) : bool :=
  match o with Returned _ => true | Threw _ _ => false end.

(** *** Regular expressions

    The fragment the sources use, matched the way the backtracking matcher of
    the language does: alternatives left to right, stars greedy. A matcher
    takes the text at the current position and the continuation for what
    follows, and answers with the text left after the whole match. *)
Inductive regex :=
| Lit (l : jstring)
| OneOf (p : code_unit -> bool)
| Seq (a b : regex)
| Alt (a b : regex)
| Opt (a : regex)
| StarOf (p : code_unit -> bool)
| Eos.

Fixpoint strip_prefix (l s : jstring) : option jstring :=
  match l, s with
  | [], _ => Some s
  | a :: l', c :: s' => if a =? c then strip_prefix l' s' else None
  | _ :: _, [] => None
  end.

Fixpoint star_of (p : code_unit -> bool) (k : jstring -> option jstring)
    (s : jstring) : option jstring :=
  match s with
  | c :: r =>
      if p c then
        match star_of p k r with
        | Some rest => Some rest
        | None => k s
        end
      else k s
  | [] => k []
  end.

Fixpoint match_here (r : regex) (s : jstring)
    (k : jstring -> option jstring) : option jstring :=
  match r with
  | Lit l =>
      match strip_prefix l s with
      | Some rest => k rest
      | None => None
      end
  | OneOf p =>
      match s with
      | c :: rest => if p c then k rest else None
      | [] => None
      end
  | Seq a b => match_here a s (fun s' => match_here b s' k)
  | Alt a b =>
      match match_here a s k with
      | Some rest => Some rest
      | None => match_here b s k
      end
  | Opt a =>
      match match_here a s k with
      | Some rest => Some rest
      | None => k s
      end
  | StarOf p => star_of p k s
  | Eos => match s with [] => k [] | _ :: _ => None end
  end.

(** The matches of a [/g] regular expression from left to right: after a
    match of [n] code units the search resumes behind it ([skip] counts the
    positions still covered by the last match); after an empty match it
    resumes one position further. *)
Fixpoint scan (r : regex) (s : jstring) (skip : nat) : list jstring :=
  match s with
  | [] =>
      match skip, match_here r [] Some with
      | O, Some _ => [[]]
      | _, _ => []
      end
  | _ :: s' =>
      match skip with
      | S n => scan r s' n
      | O =>
          match match_here r s Some with
          | Some rest =>
              let n := (length s - length rest)%nat in
              take n s :: scan r s' (n - 1)
          | None => scan r s' 0
          end
      end
  end.

(** [str.match(re)] for a regular expression with the [g] flag: the array of
    the matched texts (the groups are not reported), or [null]. *)
Definition match_g (r : regex) (s : jstring) : option (list jstring) :=
  match scan r s 0 with
  | [] => None
  | l => Some l
  end.

(** [\d] *)
Definition digit (c : code_unit) : bool := (48 <=? c) && (c <=? 57).

(** [[\d.]] *)
Definition digit_or_dot (c : code_unit) : bool := digit c || (c =? 46).

(** [.]: any code unit but a line terminator. *)
Definition not_newline (c : code_unit) : bool :=
  negb ((c =? 10) || (c =? 13) || (c =? 8232) || (c =? 8233)).

(** [str.includes(needle)] *)
Fixpoint includes (needle s : jstring) : bool :=
  match strip_prefix needle s with
  | Some _ => true
  | None => match s with [] => false | _ :: s' => includes needle s' end
  end.

(** Decimal digits of a natural number, for [String(n)] on small integers. *)
Definition N_to_string (n : N) : jstring :=
  js (DecimalString.NilZero.string_of_uint (N.to_uint n)).

(** [parseInt(digits, 10)] on a string of decimal digits. *)
Definition parse_digits (ds : jstring) : N :=
  fold_left (fun acc c => 10 * acc + (c - 48)) ds 0.

End JS.
Import JS.

(** ** The [ip] package

    The functions of the npm package [ip] that [findUDP] calls, on IPv4
    addresses in dotted notation. *)

Module Ip.

(** [\d{1,3}] *)
Definition octet : regex :=
  Seq (OneOf digit) (Seq (Opt (OneOf digit)) (Opt (OneOf digit))).

(** [/^(\d{1,3}\.){3,3}\d{1,3}$/] *)
Definition ipv4Regex : regex :=
  Seq (Seq octet (Lit (js ".")))
    (Seq (Seq octet (Lit (js ".")))
       (Seq (Seq octet (Lit (js "."))) (Seq octet Eos))).

(** [ip.isV4Format]: [ipv4Regex.test(ip)]; the expression is anchored at
    the start of the text. *)
Definition isV4Format (ip : jstring) : bool :=
  match match_here ipv4Regex ip Some with
  | Some _ => true
  | None => false
  end.

(** [ip.toBuffer] for IPv4: every part is [parseInt(part, 10) & 0xff]; a text
    in no known format is an error. *)
Definition toBuffer (ip : jstring) : option (list N) :=
  if isV4Format ip
  then Some (map (fun part => N.land (parse_digits part) 255) (split 46 ip))
  else None.

(** [ip.toString] of a 4-byte buffer. *)
Definition toString (buff : list N) : jstring :=
  join 46 (map N_to_string buff).

(** [ip.not]: every byte xor [0xff]. *)
Definition not (addr : jstring) : option jstring :=
  match toBuffer addr with
  | Some buff => Some (toString (map (fun b => N.lxor 255 b) buff))
  | None => None
  end.

(** [ip.or] of two addresses of the same family: byte by byte. *)
Definition or (a b : jstring) : option jstring :=
  match toBuffer a, toBuffer b with
  | Some ba, Some bb =>
      Some (toString (map (fun xy => N.lor (fst xy) (snd xy)) (combine ba bb)))
  | _, _ => None
  end.

End Ip.

(** ** app/util/Validator.js *)

Module Validator.
Section Validator.
Context `{Runtime}.

(** [isValidNumber]: returns [true], or falls off its end ([undefined]). *)
Definition isValidNumber (number : jsval) : jsval :=
  if truthy (js_and (js_and
       (VBool (negb (match number with VUndefined => true | _ => false end)))
       (VBool (negb (match number with VNull => true | _ => false end))))
       (VBool (negb (isNaN number))))
  then VBool true
  else VUndefined.

Definition isValidPitch (pitch : jsval) : bool :=
  if truthy (js_and (js_and
       (isValidNumber pitch)
       (VBool (num_ge (ToNumber pitch) (num_of_Z (-180)))))
       (VBool (num_le (ToNumber pitch) (num_of_Z 180))))
  then true
  else false.

Definition isValidRoll (roll : jsval) : bool :=
  if truthy (js_and (js_and
       (isValidNumber roll)
       (VBool (num_ge (ToNumber roll) (num_of_Z (-180)))))
       (VBool (num_le (ToNumber roll) (num_of_Z 180))))
  then true
  else false.

Definition isValidYaw (yaw : jsval) : bool :=
  if truthy (isValidNumber yaw) then true else false.

Definition isValidHeading (heading : jsval) : bool :=
  if truthy (js_and (js_and
       (isValidNumber heading)
       (VBool (num_ge (ToNumber heading) (num_of_Z 0))))
       (VBool (num_le (ToNumber heading) (num_of_Z 360))))
  then true
  else false.

Definition isValidSpeed (speed : jsval) : bool :=
  if truthy (js_and
       (isValidNumber speed)
       (VBool (num_ge (ToNumber speed) (num_of_Z 0))))
  then true
  else false.

Definition isValidAltitude (altitude : jsval) : bool :=
  if truthy (js_and
       (isValidNumber altitude)
       (VBool (num_ge (ToNumber altitude) (num_of_Z 0))))
  then true
  else false.

Definition isValidThrottle (throttle : jsval) : bool :=
  if truthy (js_and (js_and
       (isValidNumber throttle)
       (VBool (num_ge (ToNumber throttle) (num_of_Z 0))))
       (VBool (num_le (ToNumber throttle) (num_of_Z 100))))
  then true
  else false.

Definition isValidFlap (flap : jsval) : bool :=
  if truthy (isValidNumber flap) then true else false.

Definition isValidLatitude (lat : jsval) : bool :=
  if truthy (isValidNumber lat) then true else false.

Definition isValidLongitude (lon : jsval) : bool :=
  if truthy (isValidNumber lon) then true else false.
End Validator.
End Validator.

(** ** models/TelemetryData *)

Module TelemetryData.

Definition timestamp := Z.

(** The fields of the [TelemetryData] instance. A Flight State Snapshot maps a
    header name to the text of its value. *)
Record t := {
  headers : list jstring;
  received : list (timestamp * jstring);
  current_state : gmap jstring jstring;
  state_history : list (gmap jstring jstring);
  sent : list (timestamp * jstring)
}.

(** The state the constructor builds. *)
Definition create : t :=
  {| headers := []; received := []; current_state := ∅;
     state_history := []; sent := [] |}.

(** [setHeadersFromString]: split on commas, trim every piece, assign. *)
Definition setHeadersFromString (headers_string : jstring) (this : t) : t :=
  {| headers := map trim (split comma headers_string);
     received := received this;
     current_state := current_state this;
     state_history := state_history this;
     sent := sent this |}.

(** Modelled from the spec: [getHeaders], which the connection handler calls
    and this version of the model does not define; the frame dispatch reads
    the Header List through it. *)
Definition getHeaders (this : t) : list jstring := headers this.

(** Modelled from the spec: [clearHeaders], called on [connect]: "clears the
    Header List". *)
Definition clearHeaders (this : t) : t :=
  {| headers := [];
     received := received this;
     current_state := current_state this;
     state_history := state_history this;
     sent := sent this |}.

(** Modelled from the spec: [getCurrentState], the accessor of
    [current_state]. *)
Definition getCurrentState (this : t) : gmap jstring jstring :=
  current_state this.

(** Modelled from the spec: the decoding step of [setCurrentStateFromString],
    "zips position-wise against the current Header List
    (mapping[header[i]] = value[i])"; the extra entries of the longer side are
    dropped and a later column shadows an earlier one of the same name. *)
Fixpoint zip_state (hs vs : list jstring) (m : gmap jstring jstring)
  : gmap jstring jstring :=
  match hs, vs with
  | h :: hs', v :: vs' => zip_state hs' vs' (<[h := v]> m)
  | _, _ => m
  end.

(** Modelled from the spec: [setCurrentStateFromString], which the connection
    handler calls and this version of the model does not define: "splits text
    on the field delimiter to obtain positional values; zips position-wise
    against the current Header List [...]. The new snapshot becomes
    current_state, is appended to state_history, and the raw (timestamp, text)
    pair is appended to received." The values are the pieces of the text. *)
Definition setCurrentStateFromString (now : timestamp) (text : jstring)
    (this : t) : t :=
  let snapshot := zip_state (headers this) (split comma text) ∅ in
  {| headers := headers this;
     received := received this ++ [(now, text)];
     current_state := snapshot;
     state_history := state_history this ++ [snapshot];
     sent := sent this |}.

(** *** The inherited EventEmitter *)

Section Emitter.
(** [P]: the payloads; [S]: the state the listeners act on. *)
Context {P S : Type}.

(** A listener is a function of the payload; it may throw. *)
Definition listener := P -> S -> outcome S.

(** The listeners registered with [on], per event name, oldest first. *)
Definition registry := jstring -> list listener.

(** Node calls the listeners of the event one after the other, in the order
    of registration, on the caller's stack; an exception leaves the loop. *)
Fixpoint run_listeners (ls : list listener) (payload : P) (s : S)
  : outcome S :=
  match ls with
  | [] => Returned s
  | l :: rest =>
      match l payload s with
      | Returned s' => run_listeners rest payload s'
      | Threw e s' => Threw e s'
      end
  end.

(** [EventEmitter.prototype.emit]: an ['error'] event nobody listens to is
    thrown. *)
Definition emit (reg : registry) (name : jstring) (payload : P) (s : S)
  : outcome S :=
  match reg name with
  | [] => if decide (name = js "error")
          then Threw (Raised (VStr (js "Unhandled error"))) s
          else Returned s
  | ls => run_listeners ls payload s
  end.

(** What [this] is bound to inside a function. *)
Inductive receiver :=
| GlobalObject
| Instance.

(** [this.emit(packet_name, packet_data)]: only the instance inherits
    [emit]; on any other receiver the property is [undefined] and the call
    is a TypeError. *)
Definition this_emit (this : receiver) (reg : registry)
    (packet_name : jstring) (packet_data : P) (s : S) : outcome S :=
  match this with
  | Instance => emit reg packet_name packet_data s
  | GlobalObject =>
      Threw (TypeError (js "this.emit is not a function")) s
  end.

(** Underscore's [_.each(obj, iteratee, context)] on an object, given as its
    own enumerable properties in iteration order: [iteratee] is called as
    [iteratee(value, key)] with [this] bound to [context]; without a
    context it is a plain call, whose [this] is the global object. [None]
    as object is [undefined], which has no keys. *)
Fixpoint each_entries (entries : list (jstring * P))
    (iteratee : receiver -> P -> jstring -> S -> outcome S)
    (context : option receiver) (s : S) : outcome S :=
  match entries with
  | [] => Returned s
  | (key, value) :: rest =>
      match iteratee (default GlobalObject context) value key s with
      | Returned s' => each_entries rest iteratee context s'
      | Threw e s' => Threw e s'
      end
  end.

Definition each (obj : option (list (jstring * P)))
    (iteratee : receiver -> P -> jstring -> S -> outcome S)
    (context : option receiver) (s : S) : outcome S :=
  match obj with
  | None => Returned s
  | Some entries => each_entries entries iteratee context s
  end.

(** The loop of [emitPackets] for a given [context] argument of [_.each]. *)
Definition emitPackets_in (context : option receiver) (reg : registry)
    (packets : option (list (jstring * P))) (s : S) : outcome S :=
  each packets
    (fun this packet_data packet_name =>
       this_emit this reg packet_name packet_data)
    context s.

(** [emitPackets]: the source passes no context to [_.each]. *)
Definition emitPackets (reg : registry)
    (packets : option (list (jstring * P))) (s : S) : outcome S :=
  emitPackets_in None reg packets s.
End Emitter.

End TelemetryData.

(** ** managers/NetworkManager

    The registry of the named connections, as far as [DataRelay] uses it. *)

Module NetworkManager.

(** A connection: its name, where it leads, and the idle timeout it was
    given, if any. *)
Record connection := {
  name : jstring;
  host : jsval;
  port : jsval;
  idle_timeout : option jsval
}.

(** Modelled from the spec: [getConnectionByName] of the Transport Registry,
    a connection registered under the name, if there is one. *)
Definition getConnectionByName (n : jstring) (cs : list connection)
  : option connection :=
  List.find (fun c => bool_decide (name c = n)) cs.

(** Modelled from the spec: [removeAllConnections(name)] of the Transport
    Registry: the transports under that name are torn down, the others
    stay. *)
Definition removeAllConnections (n : jstring) (cs : list connection)
  : list connection :=
  List.filter (fun c => negb (bool_decide (name c = n))) cs.

(** Modelled from the spec: [addConnection(name, host, port)] of the
    Transport Registry, which returns the handle of the new connection, and
    [handle.setTimeout(ms)]. *)
Definition addConnection (n : jstring) (h p : jsval) : connection :=
  {| name := n; host := h; port := p; idle_timeout := None |}.

Definition setTimeout (ms : jsval) (c : connection) : connection :=
  {| name := name c; host := host c; port := port c;
     idle_timeout := Some ms |}.

End NetworkManager.

(** ** app/connections/DataRelay.js: the stream connection *)

Module DataRelay.

(** What [JSON.stringify] is applied to before logging. *)
Inductive json_arg :=
| JsonHeaders (hs : list jstring)
| JsonState (st : gmap jstring jstring).

(** The calls into the collaborators ([Logger], [PacketParser],
    [StatusManager]), recorded in the order they are made. They return to the
    caller and have no access to the telemetry model. *)
Inductive effect :=
| LoggerError (msg : jstring)
| LoggerDebug (msg : jstring)
| LoggerData (payload : json_arg) (label : jstring)
| CheckForMissingHeaders (hs : list jstring)
| AddStatus (msg : jstring) (priority timeout : Z)
| SetStatusCode (code : jstring) (value : bool).

Record world := {
  telemetry : TelemetryData.t;
  effects : list effect
}.

Definition with_telemetry (f : TelemetryData.t -> TelemetryData.t) (w : world)
  : world :=
  {| telemetry := f (telemetry w); effects := effects w |}.

Definition perform (e : effect) (w : world) : world :=
  {| telemetry := telemetry w; effects := effects w ++ [e] |}.

Section Stream.
Context `{Runtime}.
(** The payloads of the packet events and the listeners registered on the
    telemetry model. *)
Context {P : Type}.
Context (reg : @TelemetryData.registry P world).

Definition parseHeaders (data : jstring) (w : world) : world :=
  let w1 := with_telemetry (TelemetryData.setHeadersFromString data) w in
  let w2 := perform (CheckForMissingHeaders
                       (TelemetryData.getHeaders (telemetry w1))) w1 in
  let w3 := perform (LoggerDebug
              (js "Network data_relay Received headers: " ++ data)) w2 in
  let w4 := perform (LoggerData
              (JsonHeaders (TelemetryData.getHeaders (telemetry w3)))
              (js "DATA_RELAY_HEADERS")) w3 in
  perform (AddStatus (js "Received headers from data_relay") 3 3000) w4.

(** [parseData]: [emitPackets] is called without an argument. *)
Definition parseData (now : TelemetryData.timestamp) (data : jstring)
    (w : world) : outcome world :=
  let w1 := with_telemetry
              (TelemetryData.setCurrentStateFromString now data) w in
  match TelemetryData.emitPackets reg None w1 with
  | Threw e w2 => Threw e w2
  | Returned w2 =>
      let w3 := perform (LoggerData
                  (JsonState (TelemetryData.getCurrentState (telemetry w2)))
                  (js "DATA_RELAY_DATA")) w2 in
      Returned (perform (SetStatusCode (js "TIMEOUT_DATA_RELAY") false) w3)
  end.

(** The ['connect'] callback of [connectTCP]. *)
Definition on_connect (w : world) : world :=
  perform (SetStatusCode (js "CONNECTED_DATA_RELAY") true)
          (with_telemetry TelemetryData.clearHeaders w).

(** The ['data'] callback of [connectTCP]; [now] is the clock reading the
    model stores with the frame. *)
Definition on_data (now : TelemetryData.timestamp) (data : jsval)
    (w : world) : outcome world :=
  if negb (truthy data) then
    Returned (perform (LoggerError
      (js "Got a blank packet from the data relay station. Value: "
         ++ ToString data)) w)
  else
    let data := ToString data in
    if Nat.eqb (length (TelemetryData.getHeaders (telemetry w))) 0
    then Returned (parseHeaders data w)
    else parseData now data w.

(** A run of the connection: the frames delivered one after the other. An
    exception leaves the callback; the next frame finds the state reached. *)
Fixpoint run (frames : list (TelemetryData.timestamp * jsval)) (w : world)
  : world :=
  match frames with
  | [] => w
  | (now, data) :: rest => run rest (state_of (on_data now data w))
  end.

(** The ['close'], ['timeout'] and ['write'] callbacks of [connectTCP]. *)
Definition on_tcp_close (had_error : jsval) (w : world) : world :=
  perform (SetStatusCode (js "DISCONNECTED_DATA_RELAY") true) w.

Definition on_tcp_timeout (w : world) : world :=
  perform (SetStatusCode (js "TIMEOUT_DATA_RELAY") true) w.

Definition on_write (data : jsval) (w : world) : world :=
  perform (AddStatus (js "Sent command to data_relay") 3 2000) w.

(** The events the connection delivers to the five callbacks, and a run of
    them. *)
Inductive tcp_event :=
| Connect
| Close (had_error : jsval)
| IdleTimeout
| Write (data : jsval)
| Data (now : TelemetryData.timestamp) (data : jsval).

Definition on_event (e : tcp_event) (w : world) : outcome world :=
  match e with
  | Connect => Returned (on_connect w)
  | Close had_error => Returned (on_tcp_close had_error w)
  | IdleTimeout => Returned (on_tcp_timeout w)
  | Write data => Returned (on_write data w)
  | Data now data => on_data now data w
  end.

Fixpoint run_connection (es : list tcp_event) (w : world) : world :=
  match es with
  | [] => w
  | e :: rest => run_connection rest (state_of (on_event e w))
  end.
End Stream.

(** The value a status code has after the calls recorded in [effects]: the
    one of the last [setStatusCode] for it, if there is one. *)
Fixpoint last_set (code : jstring) (effects : list effect)
    (current : option bool) : option bool :=
  match effects with
  | [] => current
  | SetStatusCode c value :: rest =>
      if decide (c = code) then last_set code rest (Some value)
      else last_set code rest current
  | _ :: rest => last_set code rest current
  end.

(** *** Discovery: [findUDP] *)

(** What the callback of [exec] receives: an error, or the output of the
    command. *)
Inductive exec_result :=
| ExecError
| ExecOk (stdout : jstring).

(** [(?:.| )]: one code unit, not a line terminator, or a space. *)
Definition dot_or_space (c : code_unit) : bool := not_newline c || (c =? 32).

(** The expression of the Windows branch, with the [g] flag: the text
    [Subnet Mask], a greedy run of [(?:.| )], a colon and a space, and a
    group holding a greedy run of [[\d.]]. *)
Definition subnet_mask_regex : regex :=
  Seq (Lit (js "Subnet Mask"))
    (Seq (StarOf dot_or_space)
       (Seq (Lit (js ": ")) (StarOf digit_or_dot))).

(** The expression of the other branch, with the [g] flag: [Bcast] or
    [broadcast], a colon, and a group holding a greedy run of [[\d.]]. *)
Definition bcast_regex : regex :=
  Seq (Alt (Lit (js "Bcast")) (Lit (js "broadcast")))
    (Seq (Lit (js ":")) (StarOf digit_or_dot)).

(** The two [for] loops over [matches]; [calls] collects the arguments of the
    calls of [connectUDP], oldest first. On Windows the address is
    [ip.or(ip.not(matches[i]), localIP)], elsewhere it is [matches[i]]. *)
Fixpoint connect_matches (windows : bool) (localIP : jstring)
    (matches : list jstring) (calls : list jstring)
  : outcome (list jstring) :=
  match matches with
  | [] => Returned calls
  | m :: rest =>
      if Ip.isV4Format m then
        if windows then
          match Ip.not m with
          | None => Threw (Raised (VStr (js "Invalid ip address"))) calls
          | Some inverted =>
              match Ip.or inverted localIP with
              | None => Threw (Raised (VStr (js "Invalid ip address"))) calls
              | Some broadcast =>
                  connect_matches windows localIP rest (calls ++ [broadcast])
              end
          end
        else connect_matches windows localIP rest (calls ++ [m])
      else connect_matches windows localIP rest calls
  end.

(** [findUDP], with the callback of [exec] run on [result]: [platform] is
    [process.platform], [localIP] is [ip.address()]. The result lists the
    addresses [connectUDP] was called with. The error branch names [Log],
    which is not defined. *)
Definition findUDP (platform : jstring) (result : exec_result)
    (localIP : jstring) : outcome (list jstring) :=
  let windows := includes (js "win") platform in
  match result with
  | ExecError => Threw (ReferenceError (js "Log is not defined")) []
  | ExecOk stdout =>
      match match_g (if windows then subnet_mask_regex else bcast_regex)
              stdout with
      | None => Returned []
      | Some matches => connect_matches windows localIP matches []
      end
  end.

(** The command [findUDP] hands to [exec]: [ipconfig] when the platform
    name holds "win", else [ifconfig]. *)
Definition discovery_command (platform : jstring) : jstring :=
  if includes (js "win") platform then js "ipconfig" else js "ifconfig".

(** *** Discovery: [connectUDP] *)

(** The datagram socket of one discovery attempt with the variable
    [udp_open], the pending timer and send, and what the attempt has done so
    far: the calls of [server.close()] that closed the socket, of
    [setStatusCode('TIMEOUT_UDP', true)], of [connectTCP(host, port)] and of
    [server.send] (message, port, destination). The calls of the loggers
    change nothing and are left out. *)
Record attempt := {
  handle_open : bool;
  listening : bool;
  udp_open : bool;
  timer_armed : bool;
  send_pending : bool;
  closes : nat;
  timeout_statuses : nat;
  connects : list (jstring * jstring);
  datagrams : list (jstring * jstring * jstring)
}.

(** What the event loop delivers to the attempt: the events of the socket,
    the completion of the send (with its error, if any) and the timer. *)
Inductive event :=
| Listening (local_port : jstring)
| Message (msg address : jstring)
| Sent (err : option jstring)
| Timeout
| SocketError.

Section ConnectUDP.
(** The argument of [connectUDP], [ip.address()] and the configured
    [datarelay_port]. *)
Context (broadcastIP localIP port : jstring).

(** [connectUDP] up to [server.bind()]. *)
Definition connectUDP : attempt :=
  {| handle_open := true; listening := false; udp_open := false;
     timer_armed := false; send_pending := false;
     closes := 0; timeout_statuses := 0;
     connects := []; datagrams := [] |}.

(** The ['close'] callback. *)
Definition on_close (a : attempt) : attempt :=
  {| handle_open := handle_open a; listening := listening a;
     udp_open := false; timer_armed := timer_armed a;
     send_pending := send_pending a;
     closes := closes a; timeout_statuses := timeout_statuses a;
     connects := connects a; datagrams := datagrams a |}.

(** [server.close()]: a socket that is not running throws; otherwise the
    handle is released and ['close'] is emitted, before any other callback
    of the attempt runs. *)
Definition server_close (a : attempt) : outcome attempt :=
  if handle_open a then
    Returned (on_close
      {| handle_open := false; listening := listening a;
         udp_open := udp_open a; timer_armed := timer_armed a;
         send_pending := send_pending a;
         closes := S (closes a); timeout_statuses := timeout_statuses a;
         connects := connects a; datagrams := datagrams a |})
  else Threw (Raised (VStr (js "Not running"))) a.

(** The ['error'] callback. *)
Definition on_error (a : attempt) : outcome attempt := server_close a.

(** The ['message'] callback: [connectTCP(rinfo.address, msg)], then
    [server.close()]. *)
Definition on_message (msg address : jstring) (a : attempt)
  : outcome attempt :=
  server_close
    {| handle_open := handle_open a; listening := listening a;
       udp_open := udp_open a; timer_armed := timer_armed a;
       send_pending := send_pending a;
       closes := closes a; timeout_statuses := timeout_statuses a;
       connects := connects a ++ [(address, msg)];
       datagrams := datagrams a |}.

(** The ['listening'] callback: the discovery message goes to
    [broadcastIP], and the timer of one second is started. *)
Definition on_listening (local_port : jstring) (a : attempt) : attempt :=
  {| handle_open := handle_open a; listening := true;
     udp_open := true; timer_armed := true;
     send_pending := true;
     closes := closes a; timeout_statuses := timeout_statuses a;
     connects := connects a;
     datagrams := datagrams a ++
       [(localIP ++ js ":" ++ local_port, port, broadcastIP)] |}.

(** The callback of [server.send]: [if (err) throw err]. *)
Definition on_sent (err : option jstring) (a : attempt) : outcome attempt :=
  match err with
  | Some e => Threw (Raised (VStr e)) a
  | None => Returned a
  end.

(** The callback of [setTimeout]. *)
Definition on_timeout (a : attempt) : outcome attempt :=
  if udp_open a then
    server_close
      {| handle_open := handle_open a; listening := listening a;
         udp_open := udp_open a; timer_armed := timer_armed a;
         send_pending := send_pending a;
         closes := closes a; timeout_statuses := S (timeout_statuses a);
         connects := connects a; datagrams := datagrams a |}
  else Returned a.

(** What the runtime can deliver: ['listening'] once, on an open socket;
    datagrams and errors only to an open socket (a closed handle receives
    nothing); the completion of the send and the timer once each, after the
    ['listening'] callback has started them. *)
Definition deliverable (e : event) (a : attempt) : bool :=
  match e with
  | Listening _ => handle_open a && negb (listening a)
  | Message _ _ => handle_open a && listening a
  | Sent _ => send_pending a
  | Timeout => timer_armed a
  | SocketError => handle_open a
  end.

(** The runtime forgets a timer, and a send, when it runs its callback. *)
Definition disarm (a : attempt) : attempt :=
  {| handle_open := handle_open a; listening := listening a;
     udp_open := udp_open a; timer_armed := false;
     send_pending := send_pending a;
     closes := closes a; timeout_statuses := timeout_statuses a;
     connects := connects a; datagrams := datagrams a |}.

Definition complete_send (a : attempt) : attempt :=
  {| handle_open := handle_open a; listening := listening a;
     udp_open := udp_open a; timer_armed := timer_armed a;
     send_pending := false;
     closes := closes a; timeout_statuses := timeout_statuses a;
     connects := connects a; datagrams := datagrams a |}.

(** The callback an event runs. *)
Definition handle (e : event) (a : attempt) : outcome attempt :=
  match e with
  | Listening local_port => Returned (on_listening local_port a)
  | Message msg address => on_message msg address a
  | Sent err => on_sent err (complete_send a)
  | Timeout => on_timeout (disarm a)
  | SocketError => on_error a
  end.

(** A schedule: the events in the order the loop takes them; an event the
    runtime cannot deliver in the state reached does not happen. *)
Fixpoint run_events (es : list event) (a : attempt) : attempt :=
  match es with
  | [] => a
  | e :: rest =>
      if deliverable e a then run_events rest (state_of (handle e a))
      else run_events rest a
  end.
End ConnectUDP.

(** *** [connectTCP] and [init] *)

(** The entries of [network_config] the module reads. *)
Record config := {
  datarelay_legacy_mode : jsval;
  datarelay_legacy_host : jsval;
  datarelay_legacy_port : jsval;
  datarelay_timeout : jsval
}.

(** The link: the connections of the [NetworkManager] and the addresses
    [connectUDP] has been called with. *)
Record link := {
  connections : list NetworkManager.connection;
  discoveries : list jstring
}.

Section Init.
Context `{Runtime}.
Context (cfg : config).

(** [v == true]: undefined and null are not equal to a boolean; any other
    value is compared as a number with 1. *)
Definition equals_true (v : jsval) : bool :=
  match v with
  | VUndefined | VNull => false
  | _ =>
      match ToNumber v with
      | Fin q => Qeq_bool q 1
      | _ => false
      end
  end.

(** [connectTCP]: the connections named data_relay are removed, the new one
    is added and given the configured timeout (the five callbacks it is
    given are [on_connect], [on_tcp_close], [on_tcp_timeout], [on_write]
    and [on_data]). *)
Definition connectTCP (h p : jsval) (l : link) : link :=
  let cs :=
    match NetworkManager.getConnectionByName (js "data_relay")
            (connections l) with
    | Some _ =>
        NetworkManager.removeAllConnections (js "data_relay") (connections l)
    | None => connections l
    end in
  let data_relay := NetworkManager.addConnection (js "data_relay") h p in
  {| connections :=
       cs ++ [NetworkManager.setTimeout (datarelay_timeout cfg) data_relay];
     discoveries := discoveries l |}.

(** [DataRelay.init], with the callback of [exec] run on [result] when the
    discovery is taken. *)
Definition init (platform : jstring) (result : exec_result)
    (localIP : jstring) (l : link) : outcome link :=
  let l1 :=
    match NetworkManager.getConnectionByName (js "data_relay")
            (connections l) with
    | Some _ =>
        {| connections :=
             NetworkManager.removeAllConnections (js "data_relay")
               (connections l);
           discoveries := discoveries l |}
    | None => l
    end in
  if equals_true (datarelay_legacy_mode cfg) then
    Returned (connectTCP (datarelay_legacy_host cfg)
                (datarelay_legacy_port cfg) l1)
  else
    match findUDP platform result localIP with
    | Returned calls =>
        Returned {| connections := connections l1;
                    discoveries := discoveries l1 ++ calls |}
    | Threw e calls =>
        Threw e {| connections := connections l1;
                   discoveries := discoveries l1 ++ calls |}
    end.
End Init.

(** The connections of the link that carry a given name, and the others. *)
Definition named (n : jstring) (l : link)
  : list NetworkManager.connection :=
  List.filter (fun c => bool_decide (NetworkManager.name c = n))
    (connections l).

Definition others (n : jstring) (l : link)
  : list NetworkManager.connection :=
  List.filter (fun c => negb (bool_decide (NetworkManager.name c = n)))
    (connections l).

End DataRelay.

(** ** The picpilot command sender *)

Module Commands.

(** [Network.connections]: the connection registered under ['data_relay'], if
    any, with what has been written to it. *)
Record network := {
  data_relay : option (list jstring)
}.

(** The calls to [Logger]. *)
Inductive log_entry :=
| LoggerWarn (msg : jstring)
| LoggerError (msg : jstring).

Record env := {
  net : network;
  logged : list log_entry
}.

Section Commands.
Context `{Runtime}.

Definition log (e : log_entry) (s : env) : env :=
  {| net := net s; logged := logged s ++ [e] |}.

Definition checkConnection (s : env) : bool * env :=
  match data_relay (net s) with
  | Some _ => (true, s)
  | None =>
      (false,
       log (LoggerWarn
              (js "Cannot send command as the data_relay connection has "
               ++ js "not yet been established")) s)
  end.

(** [connection.write(chunk)] appends the chunk to what the connection was
    given; on a missing connection the property access is a TypeError. *)
Definition sendCommand (command : jstring) (value : jsval) (s : env)
  : outcome env :=
  match data_relay (net s) with
  | Some written =>
      Returned {| net := {| data_relay :=
                    Some (written ++
                      [command ++ js ":" ++ ToString value
                         ++ [13; 10]%N]) |};
                  logged := logged s |}
  | None =>
      Threw (TypeError (js "Cannot read property 'write' of undefined")) s
  end.

Definition sendRoll (roll : jsval) (s : env) : outcome env :=
  let (connected, s1) := checkConnection s in
  if connected then
    if Validator.isValidRoll roll then
      sendCommand (js "set_rollAngle") roll s1
    else
      Returned (log (LoggerError
        (js "Command to not sent since invalid roll value detected! Roll:"
           ++ ToString roll)) s1)
  else Returned s1.

(** What a call added to the transport. *)
Definition written (s : env) : list jstring :=
  match data_relay (net s) with
  | Some l => l
  | None => []
  end.

(** [sendProtectedCommand]; [command_password] is the entry of that name in
    [picpilot_config]. *)
Definition sendProtectedCommand (command_password : jsval)
    (command : jstring) (s : env) : outcome env :=
  match data_relay (net s) with
  | Some written =>
      Returned {| net := {| data_relay :=
                    Some (written ++
                      [command ++ js ":" ++ ToString command_password
                         ++ [13; 10]%N]) |};
                  logged := logged s |}
  | None =>
      Threw (TypeError (js "Cannot read property 'write' of undefined")) s
  end.

Definition sendPitch (pitch : jsval) (s : env) : outcome env :=
  let (connected, s1) := checkConnection s in
  if connected then
    if Validator.isValidPitch pitch then
      sendCommand (js "set_pitchAngle") pitch s1
    else
      Returned (log (LoggerError
        (js "Command to not sent since invalid pitch value detected! Pitch:"
           ++ ToString pitch)) s1)
  else Returned s1.

Definition sendHeading (heading : jsval) (s : env) : outcome env :=
  let (connected, s1) := checkConnection s in
  if connected then
    if Validator.isValidHeading heading then
      sendCommand (js "set_heading") heading s1
    else
      Returned (log (LoggerError
        (js ("Command to not sent since invalid heading value detected! "
             ++ "Heading:")
           ++ ToString heading)) s1)
  else Returned s1.

(** The requests a user of the sender makes, and a series of them made one
    after the other (each call returns before the next is made; an exception
    would end the series). *)
Inductive request :=
| Roll (v : jsval)
| Pitch (v : jsval)
| Heading (v : jsval).

Definition send (r : request) (s : env) : outcome env :=
  match r with
  | Roll v => sendRoll v s
  | Pitch v => sendPitch v s
  | Heading v => sendHeading v s
  end.

Fixpoint send_all (rs : list request) (s : env) : outcome env :=
  match rs with
  | [] => Returned s
  | r :: rest =>
      match send r s with
      | Returned s' => send_all rest s'
      | Threw e s' => Threw e s'
      end
  end.

(** The validator a request is checked with and the line it is written as. *)
Definition accepted (r : request) : bool :=
  match r with
  | Roll v => Validator.isValidRoll v
  | Pitch v => Validator.isValidPitch v
  | Heading v => Validator.isValidHeading v
  end.

Definition line_of (r : request) : jstring :=
  match r with
  | Roll v => js "set_rollAngle:" ++ ToString v ++ [13; 10]%N
  | Pitch v => js "set_pitchAngle:" ++ ToString v ++ [13; 10]%N
  | Heading v => js "set_heading:" ++ ToString v ++ [13; 10]%N
  end.
End Commands.

End Commands.

(** ** A runtime to evaluate the model on concrete inputs

    It agrees with JavaScript on the inputs of the examples below: decimal
    literals without exponent whose value is a double (such as [5], [-80] or
    [45.5]), integers printed in decimal, and ASCII bytes. *)

Module Sample.

Fixpoint span_digits (s : jstring) : jstring * jstring :=
  match s with
  | c :: r =>
      if digit c then let (d, rest) := span_digits r in (c :: d, rest)
      else ([], s)
  | [] => ([], [])
  end.

Definition digits_value (ds : jstring) : Z :=
  fold_left (fun acc c => (10 * acc + Z.of_N (c - 48))%Z) ds 0%Z.

(** [digits [. digits]] with at least one digit, as an exact rational. *)
Definition unsigned_decimal (s : jstring) : option Q :=
  let (ip, rest) := span_digits s in
  match rest with
  | [] => if Nat.eqb (length ip) 0 then None
          else Some (inject_Z (digits_value ip))
  | c :: rest' =>
      if c =? 46 then
        let (fp, rest'') := span_digits rest' in
        match rest'' with
        | [] =>
            if Nat.eqb (length ip + length fp) 0 then None
            else Some (Qmake (digits_value (ip ++ fp))
                         (Z.to_pos (10 ^ Z.of_nat (length fp))))
        | _ => None
        end
      else None
  end.

Definition string_to_number (s : jstring) : number :=
  match trim s with
  | [] => Fin 0
  | c :: r =>
      if c =? 45 then
        match unsigned_decimal r with Some q => Fin (- q) | None => NaN end
      else if c =? 43 then
        match unsigned_decimal r with Some q => Fin q | None => NaN end
      else
        match unsigned_decimal (c :: r) with Some q => Fin q | None => NaN end
  end.

Definition Z_to_string (z : Z) : jstring :=
  js (DecimalString.NilZero.string_of_int (Z.to_int z)).

(** The decimal digits of [num / den], a fraction below one, as far as
    [fuel] reaches. *)
Fixpoint fraction_digits (fuel : nat) (num den : Z) : jstring :=
  match fuel with
  | O => []
  | S f =>
      if (num =? 0)%Z then []
      else
        let d := (10 * num / den)%Z in
        (48 + Z.to_N d) :: fraction_digits f (10 * num - d * den)%Z den
  end.

Definition number_to_string (n : number) : jstring :=
  match n with
  | NaN => js "NaN"
  | PosInf => js "Infinity"
  | NegInf => js "-Infinity"
  | Fin q =>
      let a := Z.abs (Qnum q) in
      let d := Z.pos (Qden q) in
      (if (Qnum q <? 0)%Z then js "-" else [])
      ++ Z_to_string (a / d)
      ++ (if (a mod d =? 0)%Z then []
          else js "." ++ fraction_digits 17 (a mod d) d)
  end.

Definition buffer_to_string (bytes : list N) : jstring :=
  map (fun b => if b <? 128 then b else 65533) bytes.

#[export] Instance runtime : Runtime :=
  {| StringToNumber := string_to_number;
     NumberToString := number_to_string;
     BufferToString := buffer_to_string;
     StringToNumber_empty := eq_refl |}.

End Sample.

(** ** Concrete states for the examples *)

Module Scenario.

(** No listener is registered on the telemetry model. *)
Definition no_listeners : @TelemetryData.registry unit DataRelay.world :=
  fun _ => [].

(** The state right after the constructor ran: no headers yet. *)
Definition fresh : DataRelay.world :=
  {| DataRelay.telemetry := TelemetryData.create; DataRelay.effects := [] |}.

(** The header frame "lat,lon,alt" has been received. *)
Definition with_headers : DataRelay.world :=
  {| DataRelay.telemetry :=
       TelemetryData.setHeadersFromString (js "lat,lon,alt")
         TelemetryData.create;
     DataRelay.effects := [] |}.

(** The frames the claim about dropped frames speaks of: blank strings and
    values that are not strings. *)
Definition blank_or_not_a_string (v : jsval) : bool :=
  match v with
  | VStr s => Nat.eqb (length s) 0
  | _ => true
  end.

(** A connection registry with an open data_relay connection, and one
    without. *)
Definition connected : Commands.env :=
  {| Commands.net := {| Commands.data_relay := Some [] |};
     Commands.logged := [] |}.

Definition disconnected : Commands.env :=
  {| Commands.net := {| Commands.data_relay := None |};
     Commands.logged := [] |}.


(** Listeners that note what they receive: the state they act on is the list
    of deliveries (listener, event, payload), oldest first. *)
Definition delivery := (nat * jstring * nat)%type.

Definition recorder (id : nat) (event : jstring)
  : @TelemetryData.listener nat (list delivery) :=
  fun payload log => Returned (log ++ [(id, event, payload)]).


(** Two listeners on aircraft_position, one on aircraft_status. *)
Definition two_and_one : @TelemetryData.registry nat (list delivery) :=
  fun name =>
    if decide (name = js "aircraft_position")
    then [recorder 0 (js "aircraft_position");
          recorder 1 (js "aircraft_position")]
    else if decide (name = js "aircraft_status")
    then [recorder 2 (js "aircraft_status")]
    else [].


(** The object [{aircraft_position: 1, aircraft_status: 2}]. *)
Definition two_packets : option (list (jstring * nat)) :=
  Some [(js "aircraft_position", 1%nat); (js "aircraft_status", 2%nat)].


(** Three lines of the output of [ipconfig], and two of [ifconfig], for the
    interface 192.168.1.7 with mask 255.255.255.0. *)
Definition ipconfig_output : jstring :=
  js "   IPv4 Address. . . . . . . . . . . : 192.168.1.7" ++ [13; 10] ++
  js "   Subnet Mask . . . . . . . . . . . : 255.255.255.0" ++ [13; 10] ++
  js "   Default Gateway . . . . . . . . . : 192.168.1.1" ++ [13; 10].

Definition ifconfig_output : jstring :=
  js "eth0      Link encap:Ethernet  HWaddr 00:1c:42:2e:60:4a" ++ [10] ++
  js "          inet addr:192.168.1.7  Bcast:192.168.1.255  Mask:255.255.255.0"
  ++ [10].

(** One discovery attempt towards 192.168.1.255, discovery port 1234. *)
Definition attempt0 : DataRelay.attempt := DataRelay.connectUDP.

Definition deliver (es : list DataRelay.event) : DataRelay.attempt :=
  DataRelay.run_events (js "192.168.1.255") (js "192.168.1.7") (js "1234")
    es attempt0.

(** A configuration in legacy mode and one in discovery mode, and a link
    that holds a stale data_relay connection beside another connection. *)
Definition legacy_config : DataRelay.config :=
  {| DataRelay.datarelay_legacy_mode := VBool true;
     DataRelay.datarelay_legacy_host := VStr (js "192.168.1.103");
     DataRelay.datarelay_legacy_port := VNum (num_of_Z 1234);
     DataRelay.datarelay_timeout := VNum (num_of_Z 5000) |}.

Definition discovery_config : DataRelay.config :=
  {| DataRelay.datarelay_legacy_mode := VBool false;
     DataRelay.datarelay_legacy_host := VStr (js "192.168.1.103");
     DataRelay.datarelay_legacy_port := VNum (num_of_Z 1234);
     DataRelay.datarelay_timeout := VNum (num_of_Z 5000) |}.

Definition stale_link : DataRelay.link :=
  {| DataRelay.connections :=
       [NetworkManager.addConnection (js "data_relay")
          (VStr (js "10.0.0.1")) (VNum (num_of_Z 1));
        NetworkManager.addConnection (js "multi_echo")
          (VStr (js "10.0.0.2")) (VNum (num_of_Z 2));
        NetworkManager.addConnection (js "data_relay")
          (VStr (js "10.0.0.3")) (VNum (num_of_Z 3))];
     DataRelay.discoveries := [] |}.

End Scenario.

(** ** Predicates of the statements *)

Module Props.

Section Angles.
Context `{Runtime}.

(** The inputs the validators of an angle are meant to accept: neither
    [undefined] nor [null], not NaN, and [Number(v)] in the closed interval
    from -180 to 180. *)
Definition angle_ok (v : jsval) : Prop :=
  v <> VUndefined /\ v <> VNull /\ isNaN v = false /\
  num_ge (ToNumber v) (num_of_Z (-180)) = true /\
  num_le (ToNumber v) (num_of_Z 180) = true.

(** What [isValidNumber] tests. *)
Definition valid_number (v : jsval) : Prop :=
  v <> VUndefined /\ v <> VNull /\ isNaN v = false.

(** [Number(v)] lies between two integers, bounds included. *)
Definition between (lo hi : Z) (v : jsval) : Prop :=
  num_ge (ToNumber v) (num_of_Z lo) = true /\
  num_le (ToNumber v) (num_of_Z hi) = true.

(** The ten validators of the module. *)
Definition validators : list (jsval -> bool) :=
  [Validator.isValidPitch; Validator.isValidRoll; Validator.isValidYaw;
   Validator.isValidHeading; Validator.isValidSpeed;
   Validator.isValidAltitude; Validator.isValidThrottle;
   Validator.isValidFlap; Validator.isValidLatitude;
   Validator.isValidLongitude].
End Angles.

(** A continuation that never answers with more text than it was given. *)
Definition shrinking (k : jstring -> option jstring) : Prop :=
  forall s x, k s = Some x -> (length x <= length s)%nat.

(** What every schedule of a discovery attempt maintains: an open socket has
    never been closed, a closed one was closed once and has [udp_open] false;
    the timeout status is raised at most once, and not before the timer has
    run. *)
Definition attempt_inv (a : DataRelay.attempt) : Prop :=
  (DataRelay.handle_open a = true -> DataRelay.closes a = 0%nat) /\
  (DataRelay.handle_open a = false ->
     DataRelay.closes a = 1%nat /\ DataRelay.udp_open a = false) /\
  (DataRelay.timer_armed a = true ->
     DataRelay.timeout_statuses a = 0%nat) /\
  (DataRelay.listening a = false ->
     DataRelay.timeout_statuses a = 0%nat /\
     DataRelay.timer_armed a = false) /\
  (DataRelay.timeout_statuses a <= 1)%nat.

(** A call that sets a status to false sets the timeout status. *)
Definition clears_timeout_only (x : DataRelay.effect) : Prop :=
  forall c, x = DataRelay.SetStatusCode c false ->
            c = js "TIMEOUT_DATA_RELAY".

(** One to three decimal digits: the text of a byte. *)
Definition is_octet (s : jstring) : bool :=
  (1 <=? length s)%nat && (length s <=? 3)%nat && forallb digit s.

(** What the decimal text of a byte must satisfy to be read back. *)
Definition byte_text_ok (b : N) : bool :=
  is_octet (N_to_string b) && (parse_digits (N_to_string b) =? b)
  && (N.lxor 255 b <? 256).

(** Four bytes. *)
Definition is_ipv4_bytes (bs : list N) : Prop :=
  length bs = 4%nat /\ Forall (fun b => b < 256) bs.

(** Byte by byte, the bits the mask leaves clear are set in the address. *)
Definition broadcast_bytes (mask addr : list N) : list N :=
  map (fun ma => N.lor (N.lxor 255 (fst ma)) (snd ma)) (combine mask addr).

(** What every schedule of a discovery attempt maintains besides: while the
    socket is open nothing has been decided (no connection opened, no status
    raised); at most one connection is ever opened, and then no timeout is
    reported; [udp_open] is true exactly while the socket is open and
    listening. *)
Definition attempt_outcome_inv (a : DataRelay.attempt) : Prop :=
  (DataRelay.handle_open a = true ->
     DataRelay.connects a = [] /\ DataRelay.timeout_statuses a = 0%nat) /\
  (length (DataRelay.connects a) <= 1)%nat /\
  (DataRelay.connects a <> [] -> DataRelay.timeout_statuses a = 0%nat) /\
  DataRelay.udp_open a = DataRelay.handle_open a && DataRelay.listening a.

(** The discovery datagram: none before the socket listens, one after. *)
Definition datagram_inv (broadcastIP localIP port : jstring)
    (a : DataRelay.attempt) : Prop :=
  if DataRelay.listening a
  then exists local_port,
         DataRelay.datagrams a
         = [(localIP ++ js ":" ++ local_port, port, broadcastIP)]
  else DataRelay.datagrams a = [].





End Props.
Import Props.

(** ** Properties *)

Section ValidatorFacts.
Context `{Runtime}.

Lemma isValidNumber_true (v : jsval) :
  Validator.isValidNumber v = VBool true <->
  v <> VUndefined /\ v <> VNull /\ isNaN v = false.
Proof.
  unfold Validator.isValidNumber, js_and.
  destruct v as [| |b|n|s|bs]; cbn;
    try (split; [discriminate | intros (?&?&?); congruence]);
    destruct (isNaN _) eqn:E; cbn; split;
    try discriminate; try (intros (?&?&?); congruence);
    intros _; repeat split; congruence.
Qed.

Lemma isValidNumber_cases (v : jsval) :
  Validator.isValidNumber v = VBool true \/
  Validator.isValidNumber v = VUndefined.
Proof.
  unfold Validator.isValidNumber.
  destruct (truthy _); [left | right]; reflexivity.
Qed.

Lemma isValidRoll_spec (v : jsval) :
  Validator.isValidRoll v = true <-> angle_ok v.
Proof.
  unfold Validator.isValidRoll, angle_ok.
  destruct (num_ge (ToNumber v) (num_of_Z (-180))) eqn:G;
    destruct (num_le (ToNumber v) (num_of_Z 180)) eqn:L;
    destruct (isValidNumber_cases v) as [E|E]; rewrite E; unfold js_and; cbn;
    try (split; [discriminate | intros (?&?&?&?&?); congruence]).
  - pose proof (proj1 (isValidNumber_true v) E) as (Hu & Hn & Hnan). tauto.
  - split; [discriminate|].
    intros (Hu & Hn & Hnan & _).
    pose proof (proj2 (isValidNumber_true v) (conj Hu (conj Hn Hnan))).
    congruence.
Qed.
End ValidatorFacts.

Example sample_numbers :
  Sample.string_to_number (js "45.5") = Fin (455 # 10) /\
  Sample.string_to_number (js " -80 ") = Fin (- (80 # 1)) /\
  Sample.string_to_number (js "5.") = Fin (5 # 1) /\
  Sample.string_to_number (js "abc") = NaN /\
  Sample.number_to_string (num_of_Z (-17)) = js "-17" /\
  Sample.number_to_string (Fin (- (401 # 5))) = js "-80.2".
Proof. vm_compute. repeat split. Qed.

(** *** Strings *)

Lemma split_nonempty (sep : code_unit) (s : jstring) : split sep s <> [].
Proof.
  destruct s as [|c r]; cbn; [discriminate|].
  destruct (c =? sep); [discriminate|].
  destruct (split sep r); discriminate.
Qed.

Lemma join_split (sep : code_unit) (s : jstring) :
  join sep (split sep s) = s.
Proof.
  induction s as [|c r IH]; [reflexivity|].
  cbn [split]. destruct (N.eqb_spec c sep) as [->|Hne].
  - pose proof (split_nonempty sep r) as Hn.
    destruct (split sep r) as [|t ts] eqn:E; [contradiction|].
    cbn in *. now rewrite IH.
  - pose proof (split_nonempty sep r) as Hn.
    destruct (split sep r) as [|t ts] eqn:E; [contradiction|].
    destruct ts as [|t' ts']; cbn in *; now rewrite <- IH.
Qed.

Lemma split_no_sep (sep : code_unit) (s : jstring) :
  Forall (fun t => ~ In sep t) (split sep s).
Proof.
  induction s as [|c r IH]; cbn [split].
  - constructor; [intros []|constructor].
  - destruct (N.eqb_spec c sep) as [->|Hne].
    + constructor; [intros []|exact IH].
    + destruct (split sep r) as [|t ts];
        [repeat constructor; intros [?|[]]; congruence|].
      inversion IH as [|? ? Ht Hts]; subst. constructor; [|exact Hts].
      intros [?|?]; [congruence|contradiction].
Qed.

Lemma trim_start_split (s : jstring) :
  exists a, s = a ++ trim_start s /\ forallb is_white a = true.
Proof.
  induction s as [|c r (a & Ha & Hw)]; [exists []; split; reflexivity|].
  cbn [trim_start]. destruct (is_white c) eqn:E.
  - exists (c :: a). cbn. rewrite E, Hw. split; [now rewrite <- Ha|reflexivity].
  - exists []. split; reflexivity.
Qed.

Lemma trim_start_head (s : jstring) :
  match trim_start s with [] => True | c :: _ => is_white c = false end.
Proof.
  induction s as [|c r IH]; [exact I|].
  cbn [trim_start]. destruct (is_white c) eqn:E; [exact IH|exact E].
Qed.

Lemma trim_end_split (s : jstring) :
  exists b, s = trim_end s ++ b /\ forallb is_white b = true.
Proof.
  unfold trim_end. destruct (trim_start_split (rev s)) as (a & Ha & Hw).
  exists (rev a). split.
  - rewrite <- rev_app_distr, <- Ha. now rewrite rev_involutive.
  - rewrite forallb_forall in *. intros x Hx. apply Hw. now apply in_rev.
Qed.

Lemma trim_end_last (s : jstring) :
  match rev (trim_end s) with [] => True | c :: _ => is_white c = false end.
Proof.
  unfold trim_end. rewrite rev_involutive. apply trim_start_head.
Qed.

(** [trim] removes white space, and only white space, from both ends. *)
Lemma trim_spec (s : jstring) :
  exists a b,
    s = a ++ trim s ++ b /\
    forallb is_white a = true /\ forallb is_white b = true /\
    match trim s with [] => True | c :: _ => is_white c = false end /\
    match rev (trim s) with [] => True | c :: _ => is_white c = false end.
Proof.
  unfold trim.
  destruct (trim_start_split s) as (a & Ha & Hwa).
  destruct (trim_end_split (trim_start s)) as (b & Hb & Hwb).
  exists a, b. repeat split; try assumption.
  - now rewrite <- Hb.
  - pose proof (trim_start_head s) as Hh. rewrite Hb in Hh.
    destruct (trim_end (trim_start s)); [exact I|exact Hh].
  - apply trim_end_last.
Qed.

(** *** setHeadersFromString *)

(** C8. For every input text, [setHeadersFromString] splits it on the comma
    (the pieces joined by commas give the text back, and no piece holds a
    comma), stores the trimmed pieces in the order of the text (piece [i]
    gives header [i], which is the piece without the white space at its two
    ends), and the new Header List does not depend on the previous one; the
    other fields are kept. The text "a, b ,c" gives the headers a, b, c. *)
Theorem setHeadersFromString_splits_and_trims
    (text : jstring) (this : TelemetryData.t) :
  let pieces := split comma text in
  let this' := TelemetryData.setHeadersFromString text this in
  join comma pieces = text /\
  Forall (fun t => ~ In comma t) pieces /\
  length (TelemetryData.headers this') = length pieces /\
  (forall (i : nat) (t : jstring), pieces !! i = Some t ->
     exists h a b,
       TelemetryData.headers this' !! i = Some h /\
       t = a ++ h ++ b /\
       forallb is_white a = true /\ forallb is_white b = true /\
       match h with [] => True | c :: _ => is_white c = false end /\
       match rev h with [] => True | c :: _ => is_white c = false end) /\
  TelemetryData.headers this' =
    TelemetryData.headers
      (TelemetryData.setHeadersFromString text TelemetryData.create) /\
  TelemetryData.received this' = TelemetryData.received this /\
  TelemetryData.current_state this' = TelemetryData.current_state this /\
  TelemetryData.state_history this' = TelemetryData.state_history this /\
  TelemetryData.sent this' = TelemetryData.sent this /\
  TelemetryData.headers
    (TelemetryData.setHeadersFromString (js "a, b ,c") this)
  = [js "a"; js "b"; js "c"].
Proof.
  cbn zeta. cbn [TelemetryData.setHeadersFromString TelemetryData.headers
                 TelemetryData.received TelemetryData.current_state
                 TelemetryData.state_history TelemetryData.sent].
  split; [apply join_split|].
  split; [apply split_no_sep|].
  split; [apply length_map|].
  split.
  - intros i t Hi.
    destruct (trim_spec t) as (a & b & Ht & Ha & Hb & Hh & Hl).
    exists (trim t), a, b. repeat split; try assumption.
    rewrite list_lookup_fmap_Some. exists t. split; [reflexivity|assumption].
  - repeat split; reflexivity.
Qed.

(** *** Validator *)

Section AngleFacts.
Context `{Runtime}.

Lemma isValidPitch_isValidRoll (v : jsval) :
  Validator.isValidPitch v = Validator.isValidRoll v.
Proof. reflexivity. Qed.
End AngleFacts.

(** C10. [isValidRoll] and [isValidPitch] return true exactly on the inputs
    that are neither undefined nor null, are not NaN, and whose [Number] lies
    between -180 and 180, bounds included. A string is accepted as soon as its
    numeric value is in the range, the empty string among them, and
    [isValidNumber] returns either true or undefined, never false: undefined
    is what it returns on every input it rejects. *)
Theorem validator_roll_pitch_acceptance `{Runtime} :
  (forall v, Validator.isValidRoll v = true <-> angle_ok v) /\
  (forall v, Validator.isValidPitch v = true <-> angle_ok v) /\
  (forall s q, StringToNumber s = Fin q ->
     Qle_bool (inject_Z (-180)) q = true -> Qle_bool q (inject_Z 180) = true ->
     Validator.isValidRoll (VStr s) = true /\
     Validator.isValidPitch (VStr s) = true) /\
  ToNumber (VStr []) = Fin 0 /\
  Validator.isValidRoll (VStr []) = true /\
  (forall v, Validator.isValidNumber v = VBool true <->
             v <> VUndefined /\ v <> VNull /\ isNaN v = false) /\
  (forall v, Validator.isValidNumber v <> VBool true ->
             Validator.isValidNumber v = VUndefined).
Proof.
  assert (Hstr : forall s q, StringToNumber s = Fin q ->
     Qle_bool (inject_Z (-180)) q = true -> Qle_bool q (inject_Z 180) = true ->
     Validator.isValidRoll (VStr s) = true).
  { intros s q Hs Hlo Hhi. apply isValidRoll_spec.
    unfold angle_ok, isNaN, num_ge, num_of_Z. cbn [ToNumber]. rewrite Hs. cbn.
    repeat split; try discriminate; assumption. }
  split; [exact isValidRoll_spec|].
  split; [intros v; exact (isValidRoll_spec v)|].
  split; [intros s q Hs Hlo Hhi; split; exact (Hstr s q Hs Hlo Hhi)|].
  split; [exact StringToNumber_empty|].
  split; [apply (Hstr [] 0%Q StringToNumber_empty); reflexivity|].
  split; [exact isValidNumber_true|].
  intros v Hv. destruct (isValidNumber_cases v); [contradiction|assumption].
Qed.

Section ValidatorExamples.
Local Existing Instance Sample.runtime.

(** The acceptance test at concrete inputs: the empty string and "45.5" are
    accepted, "181", null and undefined are rejected. *)
Lemma validator_roll_pitch_acceptance_witness :
  Validator.isValidRoll (VStr (js "")) = true /\
  Validator.isValidPitch (VStr (js "45.5")) = true /\
  Validator.isValidRoll (VStr (js "181")) = false /\
  Validator.isValidRoll VNull = false /\
  Validator.isValidNumber VUndefined = VUndefined.
Proof.
  destruct (@validator_roll_pitch_acceptance Sample.runtime)
    as (_ & _ & Hstr & _ & Hempty & _ & Hrej).
  split; [exact Hempty|].
  split; [apply (Hstr (js "45.5") (455 # 10)%Q); reflexivity|].
  split; [reflexivity|].
  split; [reflexivity|].
  apply Hrej. discriminate.
Defined.

End ValidatorExamples.

(** *** Commands *)

Lemma app_singleton_neq {A} (l : list A) (x : A) : l ++ [x] <> l.
Proof.
  intros E. apply (f_equal (@length A)) in E.
  rewrite length_app in E. cbn in E. lia.
Qed.

(** C9. [sendRoll r] always returns, and it hands the command
    "set_rollAngle:" followed by the text of [r] (ended, as every command
    [sendCommand] writes, by a carriage return and a line feed) to the
    data_relay connection exactly when that connection exists and
    [Validator.isValidRoll r] is true; when one of the two fails the
    connections are left as they were: nothing is written. *)
Theorem sendRoll_writes_iff_connected_and_valid `{Runtime}
    (r : jsval) (s : Commands.env) :
  let line := js "set_rollAngle:" ++ ToString r ++ [13; 10] in
  let ok := is_Some (Commands.data_relay (Commands.net s)) /\
            Validator.isValidRoll r = true in
  exists s',
    Commands.sendRoll r s = Returned s' /\
    (Commands.written s' = Commands.written s ++ [line] <-> ok) /\
    (~ ok -> Commands.net s' = Commands.net s /\
             Commands.written s' = Commands.written s).
Proof.
  cbn zeta. unfold Commands.sendRoll, Commands.checkConnection,
    Commands.sendCommand, Commands.written.
  destruct s as [[[w|]] lg]; cbn [Commands.net Commands.data_relay].
  - destruct (Validator.isValidRoll r) eqn:V; cbn.
    + eexists. split; [reflexivity|]. cbn. split.
      * split; [intros _; split; [eexists|]; reflexivity|reflexivity].
      * intros Hn. exfalso. apply Hn. split; [eexists|]; reflexivity.
    + eexists. split; [reflexivity|]. cbn. split.
      * split; [intros E; symmetry in E; now apply app_singleton_neq in E|].
        intros [_ ?]; discriminate.
      * intros _. split; reflexivity.
  - eexists. split; [reflexivity|]. cbn. split.
    + split; [discriminate|]. intros [[? ?] _]; discriminate.
    + intros _. split; reflexivity.
Qed.

Section CommandExamples.
Local Existing Instance Sample.runtime.

(** On an open connection [sendRoll(5)] writes one line; [sendRoll(200)]
    and a call without connection write nothing. *)
Lemma sendRoll_writes_iff_connected_and_valid_witness :
  Commands.written
    (state_of (Commands.sendRoll (VNum (num_of_Z 5)) Scenario.connected))
  = [js "set_rollAngle:5" ++ [13; 10]] /\
  Commands.written
    (state_of (Commands.sendRoll (VNum (num_of_Z 200)) Scenario.connected))
  = [] /\
  Commands.written
    (state_of (Commands.sendRoll (VNum (num_of_Z 5)) Scenario.disconnected))
  = [].
Proof.
  destruct (sendRoll_writes_iff_connected_and_valid (VNum (num_of_Z 5))
              Scenario.connected) as (s1 & E1 & [_ W1] & _).
  destruct (sendRoll_writes_iff_connected_and_valid (VNum (num_of_Z 200))
              Scenario.connected) as (s2 & E2 & _ & N2).
  destruct (sendRoll_writes_iff_connected_and_valid (VNum (num_of_Z 5))
              Scenario.disconnected) as (s3 & E3 & _ & N3).
  rewrite E1, E2, E3. cbn [state_of].
  split; [apply W1; split; [eexists|]; reflexivity|].
  split; [apply N2; intros [_ ?]; discriminate|].
  apply N3. intros [[? ?] _]; discriminate.
Defined.

End CommandExamples.

(** *** Frame dispatch on the stream connection *)

Section StreamFacts.
Context `{Runtime} {P : Type}.
Context (reg : @TelemetryData.registry P DataRelay.world).

Lemma emitPackets_undefined {S : Type} (r : @TelemetryData.registry P S)
    (s : S) :
  TelemetryData.emitPackets r None s = Returned s.
Proof. reflexivity. Qed.

Lemma parseData_returns (now : TelemetryData.timestamp) (text : jstring)
    (w : DataRelay.world) :
  DataRelay.parseData reg now text w =
  Returned
    {| DataRelay.telemetry :=
         TelemetryData.setCurrentStateFromString now text
           (DataRelay.telemetry w);
       DataRelay.effects :=
         DataRelay.effects w ++
         [DataRelay.LoggerData
            (DataRelay.JsonState
               (TelemetryData.zip_state
                  (TelemetryData.headers (DataRelay.telemetry w))
                  (split comma text) ∅))
            (js "DATA_RELAY_DATA");
          DataRelay.SetStatusCode (js "TIMEOUT_DATA_RELAY") false] |}.
Proof.
  unfold DataRelay.parseData. rewrite emitPackets_undefined.
  unfold DataRelay.perform, DataRelay.with_telemetry. cbn.
  now rewrite <- app_assoc.
Qed.

Lemma parseHeaders_result (text : jstring) (w : DataRelay.world) :
  DataRelay.parseHeaders text w =
  {| DataRelay.telemetry :=
       TelemetryData.setHeadersFromString text (DataRelay.telemetry w);
     DataRelay.effects :=
       DataRelay.effects w ++
       [DataRelay.CheckForMissingHeaders (map trim (split comma text));
        DataRelay.LoggerDebug
          (js "Network data_relay Received headers: " ++ text);
        DataRelay.LoggerData
          (DataRelay.JsonHeaders (map trim (split comma text)))
          (js "DATA_RELAY_HEADERS");
        DataRelay.AddStatus (js "Received headers from data_relay") 3 3000]
  |}.
Proof.
  unfold DataRelay.parseHeaders, DataRelay.perform, DataRelay.with_telemetry.
  cbn. now rewrite <- !app_assoc.
Qed.

Lemma on_data_truthy (now : TelemetryData.timestamp) (data : jsval)
    (w : DataRelay.world) :
  truthy data = true ->
  DataRelay.on_data reg now data w =
  match TelemetryData.headers (DataRelay.telemetry w) with
  | [] => Returned (DataRelay.parseHeaders (ToString data) w)
  | _ :: _ => DataRelay.parseData reg now (ToString data) w
  end.
Proof.
  intros T. unfold DataRelay.on_data, TelemetryData.getHeaders.
  rewrite T. cbn [negb].
  now destruct (TelemetryData.headers (DataRelay.telemetry w)).
Qed.

Lemma on_data_falsy (now : TelemetryData.timestamp) (data : jsval)
    (w : DataRelay.world) :
  truthy data = false ->
  DataRelay.on_data reg now data w =
  Returned (DataRelay.perform (DataRelay.LoggerError
    (js "Got a blank packet from the data relay station. Value: "
       ++ ToString data)) w).
Proof. intros T. unfold DataRelay.on_data. now rewrite T. Qed.

Lemma headers_after_header_frame (text : jstring) :
  map trim (split comma text) <> [].
Proof.
  pose proof (split_nonempty comma text).
  destruct (split comma text); [contradiction|discriminate].
Qed.
End StreamFacts.

(** After ['connect'] the Header List is empty: the first frame that passes
    the blank test is taken as the header frame. *)
Lemma first_frame_after_connect `{Runtime} {P : Type}
    (reg : @TelemetryData.registry P DataRelay.world)
    (now : TelemetryData.timestamp) (data : jsval) (w : DataRelay.world) :
  truthy data = true ->
  DataRelay.on_data reg now data (DataRelay.on_connect w)
  = Returned (DataRelay.parseHeaders (ToString data) (DataRelay.on_connect w)).
Proof. intros T. now rewrite (on_data_truthy reg now data _ T). Qed.

(** X24. Along a run of the connection the Header List, once set, is kept
    (a header line sent again is decoded as data), and the history only
    grows after it has been set. *)
Lemma run_header_list_set_once `{Runtime} {P : Type}
    (reg : @TelemetryData.registry P DataRelay.world)
    (frames : list (TelemetryData.timestamp * jsval)) (w : DataRelay.world) :
  (TelemetryData.headers (DataRelay.telemetry w) <> [] ->
   TelemetryData.headers (DataRelay.telemetry (DataRelay.run reg frames w))
   = TelemetryData.headers (DataRelay.telemetry w)) /\
  (TelemetryData.state_history
     (DataRelay.telemetry (DataRelay.run reg frames w))
   <> TelemetryData.state_history (DataRelay.telemetry w) ->
   TelemetryData.headers (DataRelay.telemetry (DataRelay.run reg frames w))
   <> []).
Proof.
  revert w. induction frames as [|[now data] rest IH]; intros w.
  - split; [reflexivity|intros Hn; now contradiction Hn].
  - cbn [DataRelay.run].
    set (w1 := state_of (DataRelay.on_data reg now data w)).
    assert (Hstep :
      (TelemetryData.headers (DataRelay.telemetry w) <> [] ->
       TelemetryData.headers (DataRelay.telemetry w1)
       = TelemetryData.headers (DataRelay.telemetry w)) /\
      (TelemetryData.headers (DataRelay.telemetry w) = [] ->
       TelemetryData.state_history (DataRelay.telemetry w1)
       = TelemetryData.state_history (DataRelay.telemetry w))).
    { subst w1. destruct (truthy data) eqn:T.
      - rewrite (on_data_truthy reg now data w T).
        destruct (TelemetryData.headers (DataRelay.telemetry w)) eqn:E.
        + split; [intros Hn; now contradiction Hn|reflexivity].
        + rewrite parseData_returns. cbn. split; [now rewrite E|discriminate].
      - rewrite (on_data_falsy reg now data w T). split; reflexivity. }
    destruct Hstep as [Hkeep Hsame]. destruct (IH w1) as [IH1 IH2]. split.
    + intros Hn. rewrite IH1; [now apply Hkeep|]. now rewrite Hkeep.
    + intros Hh.
      destruct (TelemetryData.headers (DataRelay.telemetry w)) eqn:E.
      * apply IH2. now rewrite (Hsame eq_refl).
      * rewrite IH1; rewrite (Hkeep ltac:(discriminate)); discriminate.
Qed.

(** C2. A frame that passes the blank test is handled by the state of the
    Header List alone. While the list is empty the frame is a header frame:
    its text is split on commas, every piece trimmed, the result stored as
    the new (never empty) Header List and handed to the Header Validator, and
    the Telemetry History is left alone. Once the list is not empty the frame
    is a data frame: the Header List stays and the frame is decoded. So
    whatever the frame, a row is added to the history only when the Header
    List was not empty. *)
Theorem frame_dispatch_follows_header_list `{Runtime} {P : Type}
    (reg : @TelemetryData.registry P DataRelay.world)
    (now : TelemetryData.timestamp) (data : jsval) (w : DataRelay.world) :
  truthy data = true ->
  let text := ToString data in
  let hs := map trim (split comma text) in
  (TelemetryData.headers (DataRelay.telemetry w) = [] ->
     exists w',
       DataRelay.on_data reg now data w = Returned w' /\
       w' = DataRelay.parseHeaders text w /\
       TelemetryData.headers (DataRelay.telemetry w') = hs /\
       hs <> [] /\
       DataRelay.effects w' =
         DataRelay.effects w ++
         [DataRelay.CheckForMissingHeaders hs;
          DataRelay.LoggerDebug
            (js "Network data_relay Received headers: " ++ text);
          DataRelay.LoggerData (DataRelay.JsonHeaders hs)
            (js "DATA_RELAY_HEADERS");
          DataRelay.AddStatus (js "Received headers from data_relay") 3 3000]
       /\
       TelemetryData.received (DataRelay.telemetry w') =
         TelemetryData.received (DataRelay.telemetry w) /\
       TelemetryData.state_history (DataRelay.telemetry w') =
         TelemetryData.state_history (DataRelay.telemetry w) /\
       TelemetryData.current_state (DataRelay.telemetry w') =
         TelemetryData.current_state (DataRelay.telemetry w)) /\
  (TelemetryData.headers (DataRelay.telemetry w) <> [] ->
     exists w',
       DataRelay.on_data reg now data w = Returned w' /\
       DataRelay.parseData reg now text w = Returned w' /\
       TelemetryData.headers (DataRelay.telemetry w') =
         TelemetryData.headers (DataRelay.telemetry w) /\
       length (TelemetryData.state_history (DataRelay.telemetry w')) =
         S (length (TelemetryData.state_history (DataRelay.telemetry w)))) /\
  (forall d : jsval,
     TelemetryData.state_history
       (DataRelay.telemetry (state_of (DataRelay.on_data reg now d w)))
     <> TelemetryData.state_history (DataRelay.telemetry w) ->
     TelemetryData.headers (DataRelay.telemetry w) <> []).
Proof.
  intros T. cbn zeta. split; [|split].
  - intros E. eexists. rewrite (on_data_truthy reg now data w T), E.
    split; [reflexivity|]. split; [reflexivity|].
    rewrite parseHeaders_result. cbn.
    repeat split. apply headers_after_header_frame.
  - intros N. rewrite (on_data_truthy reg now data w T).
    destruct (TelemetryData.headers (DataRelay.telemetry w)) as [|h hs] eqn:E;
      [contradiction|].
    rewrite parseData_returns. eexists. split; [reflexivity|].
    split; [reflexivity|]. cbn. split; [exact E|].
    rewrite length_app. cbn. lia.
  - intros d Hd E. apply Hd. clear Hd.
    destruct (truthy d) eqn:Td.
    + rewrite (on_data_truthy reg now d w Td), E. reflexivity.
    + rewrite (on_data_falsy reg now d w Td). reflexivity.
Qed.

(** C7, as the code has it. A frame that fails the blank test of the handler
    (a falsy value: the empty string, undefined, null, false, zero or NaN) is
    dropped with one error report, and the telemetry model (Header List,
    received, state_history, current_state) is left as it was. *)
Theorem falsy_frame_is_discarded `{Runtime} {P : Type}
    (reg : @TelemetryData.registry P DataRelay.world)
    (now : TelemetryData.timestamp) (data : jsval) (w : DataRelay.world) :
  truthy data = false ->
  exists w' msg,
    DataRelay.on_data reg now data w = Returned w' /\
    DataRelay.effects w' = DataRelay.effects w ++ [DataRelay.LoggerError msg] /\
    DataRelay.telemetry w' = DataRelay.telemetry w.
Proof.
  intros T. rewrite (on_data_falsy reg now data w T).
  eexists. eexists. split; [reflexivity|]. split; reflexivity.
Qed.

(** C1. A frame that passes the blank test and arrives while the Header List
    is not empty is decoded against that list: the snapshot becomes
    [current_state], [state_history] grows by that snapshot alone and
    [received] by the pair of the receipt time and the frame text alone, and
    the Header List stays. With the headers lat, lon, alt and the text
    "45.5,-80.2,120" the snapshot is lat: 45.5, lon: -80.2, alt: 120. *)
Theorem data_frame_is_decoded_and_recorded_once `{Runtime} {P : Type}
    (reg : @TelemetryData.registry P DataRelay.world)
    (now : TelemetryData.timestamp) (data : jsval) (w : DataRelay.world) :
  truthy data = true ->
  TelemetryData.headers (DataRelay.telemetry w) <> [] ->
  let text := ToString data in
  let snapshot :=
    TelemetryData.zip_state (TelemetryData.headers (DataRelay.telemetry w))
      (split comma text) ∅ in
  exists w',
    DataRelay.on_data reg now data w = Returned w' /\
    TelemetryData.current_state (DataRelay.telemetry w') = snapshot /\
    TelemetryData.state_history (DataRelay.telemetry w') =
      TelemetryData.state_history (DataRelay.telemetry w) ++ [snapshot] /\
    TelemetryData.received (DataRelay.telemetry w') =
      TelemetryData.received (DataRelay.telemetry w) ++ [(now, text)] /\
    TelemetryData.headers (DataRelay.telemetry w') =
      TelemetryData.headers (DataRelay.telemetry w) /\
    (TelemetryData.headers (DataRelay.telemetry w)
       = [js "lat"; js "lon"; js "alt"] ->
     text = js "45.5,-80.2,120" ->
     snapshot = {[ js "lat" := js "45.5"; js "lon" := js "-80.2";
                   js "alt" := js "120" ]}).
Proof.
  intros T N. cbn zeta. rewrite (on_data_truthy reg now data w T).
  destruct (TelemetryData.headers (DataRelay.telemetry w)) as [|h hs] eqn:E;
    [contradiction|].
  rewrite parseData_returns. eexists. split; [reflexivity|]. cbn.
  rewrite E. repeat split.
  intros Eh Et. injection Eh as -> ->. rewrite Et.
  vm_compute. reflexivity.
Qed.

Section StreamExamples.
Local Existing Instance Sample.runtime.

(** A header frame and then a data frame, on a fresh model. *)
Lemma frame_dispatch_follows_header_list_witness :
  TelemetryData.headers (DataRelay.telemetry (state_of
    (DataRelay.on_data Scenario.no_listeners 7%Z (VStr (js "lat, lon ,alt"))
       Scenario.fresh)))
  = [js "lat"; js "lon"; js "alt"] /\
  length (TelemetryData.state_history (DataRelay.telemetry (state_of
    (DataRelay.on_data Scenario.no_listeners 8%Z (VStr (js "45.5,-80.2,120"))
       Scenario.with_headers)))) = 1%nat.
Proof.
  destruct (frame_dispatch_follows_header_list Scenario.no_listeners 7%Z
              (VStr (js "lat, lon ,alt")) Scenario.fresh eq_refl)
    as [Hh _].
  destruct (frame_dispatch_follows_header_list Scenario.no_listeners 8%Z
              (VStr (js "45.5,-80.2,120")) Scenario.with_headers eq_refl)
    as (_ & Hd & _).
  destruct (Hh eq_refl) as (w1 & E1 & _ & H1 & _).
  destruct Hd as (w2 & E2 & _ & _ & H2); [discriminate|].
  rewrite E1, E2. cbn [state_of]. split; [exact H1|exact H2].
Defined.

(** The empty string and [undefined] are dropped. *)
Lemma falsy_frame_is_discarded_witness :
  DataRelay.telemetry (state_of
    (DataRelay.on_data Scenario.no_listeners 7%Z (VStr []) Scenario.fresh))
  = DataRelay.telemetry Scenario.fresh /\
  DataRelay.telemetry (state_of
    (DataRelay.on_data Scenario.no_listeners 7%Z VUndefined
       Scenario.with_headers))
  = DataRelay.telemetry Scenario.with_headers.
Proof.
  destruct (falsy_frame_is_discarded Scenario.no_listeners 7%Z (VStr [])
              Scenario.fresh eq_refl) as (w1 & m1 & E1 & _ & H1).
  destruct (falsy_frame_is_discarded Scenario.no_listeners 7%Z VUndefined
              Scenario.with_headers eq_refl) as (w2 & m2 & E2 & _ & H2).
  rewrite E1, E2. split; [exact H1|exact H2].
Defined.

(** C7 as stated fails: a Buffer is not a string, and the handler converts it
    to text and processes it. On a fresh model the Buffer holding "a,b"
    becomes the Header List; nothing is reported as an error. *)
Lemma buffer_frame_is_processed :
  Scenario.blank_or_not_a_string (VBuffer (js "a,b")) = true /\
  DataRelay.on_data Scenario.no_listeners 7%Z (VBuffer (js "a,b"))
    Scenario.fresh
  = Returned (DataRelay.parseHeaders (js "a,b") Scenario.fresh) /\
  TelemetryData.headers (DataRelay.telemetry Scenario.fresh) = [] /\
  TelemetryData.headers (DataRelay.telemetry
    (DataRelay.parseHeaders (js "a,b") Scenario.fresh)) = [js "a"; js "b"] /\
  ~ (forall (data : jsval) (w : DataRelay.world),
       Scenario.blank_or_not_a_string data = true ->
       exists w' msg,
         DataRelay.on_data Scenario.no_listeners 7%Z data w = Returned w' /\
         DataRelay.effects w' =
           DataRelay.effects w ++ [DataRelay.LoggerError msg] /\
         DataRelay.telemetry w' = DataRelay.telemetry w).
Proof.
  split; [reflexivity|]. split; [reflexivity|]. split; [reflexivity|].
  split; [reflexivity|].
  intros Hall.
  destruct (Hall (VBuffer (js "a,b")) Scenario.fresh eq_refl)
    as (w' & msg & E & _ & Ht).
  injection E as <-. discriminate Ht.
Qed.

(** The data frame of the specification, decoded against lat, lon, alt. *)
Lemma data_frame_is_decoded_and_recorded_once_witness :
  let w' := state_of
    (DataRelay.on_data Scenario.no_listeners 8%Z (VStr (js "45.5,-80.2,120"))
       Scenario.with_headers) in
  TelemetryData.current_state (DataRelay.telemetry w')
    = {[ js "lat" := js "45.5"; js "lon" := js "-80.2";
         js "alt" := js "120" ]} /\
  TelemetryData.state_history (DataRelay.telemetry w')
    = [TelemetryData.current_state (DataRelay.telemetry w')] /\
  TelemetryData.received (DataRelay.telemetry w')
    = [(8%Z, js "45.5,-80.2,120")].
Proof.
  cbn zeta.
  destruct (data_frame_is_decoded_and_recorded_once Scenario.no_listeners 8%Z
              (VStr (js "45.5,-80.2,120")) Scenario.with_headers eq_refl)
    as (w' & E & Hc & Hh & Hr & _ & Hs); [discriminate|].
  rewrite E. cbn [state_of]. rewrite Hh, Hr, Hc.
  split; [exact (Hs eq_refl eq_refl)|]. split; reflexivity.
Defined.

End StreamExamples.

(** *** emitPackets *)

(** C3, on the code. The function given to [_.each] is called without a
    context, so inside it [this] is not the telemetry model and [this.emit]
    is not a function: whatever the listeners, a call of [emitPackets] with at
    least one category throws a TypeError at the first category and no
    listener has been called (the state the listeners act on is untouched);
    only an absent or empty mapping returns. With the packets
    aircraft_position: 1, aircraft_status: 2 and recording listeners nothing
    is delivered, where the loop bound to the model would have delivered
    each payload to the listeners of its category, in order. *)
Theorem emitPackets_throws_before_any_delivery :
  (forall (P S : Type) (reg : @TelemetryData.registry P S)
          (name : jstring) (payload : P) (rest : list (jstring * P)) (s : S),
     TelemetryData.emitPackets reg (Some ((name, payload) :: rest)) s
     = Threw (TypeError (js "this.emit is not a function")) s) /\
  (forall (P S : Type) (reg : @TelemetryData.registry P S) (s : S),
     TelemetryData.emitPackets reg None s = Returned s /\
     TelemetryData.emitPackets reg (Some []) s = Returned s) /\
  TelemetryData.emitPackets Scenario.two_and_one Scenario.two_packets []
  = Threw (TypeError (js "this.emit is not a function")) [] /\
  TelemetryData.emitPackets_in (Some TelemetryData.Instance)
    Scenario.two_and_one Scenario.two_packets []
  = Returned [(0%nat, js "aircraft_position", 1%nat);
              (1%nat, js "aircraft_position", 1%nat);
              (2%nat, js "aircraft_status", 2%nat)].
Proof.
  split; [reflexivity|]. split; [split; reflexivity|].
  split; [reflexivity|]. vm_compute. reflexivity.
Qed.


(** *** Discovery: the matches of [findUDP] *)

Lemma strip_prefix_Some (l s rest : jstring) :
  strip_prefix l s = Some rest -> s = l ++ rest.
Proof.
  revert s. induction l as [|a l IH]; intros s E; cbn in E.
  - now injection E as ->.
  - destruct s as [|c s]; [discriminate|].
    destruct (N.eqb_spec a c) as [->|]; [|discriminate].
    cbn. f_equal. now apply IH.
Qed.

Section MatchLength.
Lemma shrinking_Some : shrinking Some.
Proof. intros s x E. injection E as ->. lia. Qed.

Lemma star_of_length (p : code_unit -> bool) (k : jstring -> option jstring) :
  shrinking k -> shrinking (star_of p k).
Proof.
  intros Hk s. induction s as [|c r IH]; intros x E; cbn in E.
  - apply (Hk [] x E).
  - destruct (p c).
    + destruct (star_of p k r) as [y|] eqn:Er.
      * injection E as <-. specialize (IH y eq_refl). cbn. lia.
      * apply (Hk _ _ E).
    + apply (Hk _ _ E).
Qed.

Lemma match_here_length (r : regex) (k : jstring -> option jstring) :
  shrinking k -> shrinking (fun s => match_here r s k).
Proof.
  revert k. induction r as [l|p|a IHa b IHb|a IHa b IHb|a IHa|p|];
    intros k Hk s x E; cbn in E.
  - destruct (strip_prefix l s) as [rest|] eqn:El; [|discriminate].
    apply strip_prefix_Some in El. subst s. apply Hk in E.
    rewrite length_app. lia.
  - destruct s as [|c rest]; [discriminate|].
    destruct (p c); [|discriminate]. apply Hk in E. cbn. lia.
  - apply (IHa (fun s' => match_here b s' k)); [|exact E].
    intros s' y E'. apply (IHb k Hk s' y E').
  - destruct (match_here a s k) as [y|] eqn:Ea.
    + injection E as <-. apply (IHa k Hk s y Ea).
    + apply (IHb k Hk s x E).
  - destruct (match_here a s k) as [y|] eqn:Ea.
    + injection E as <-. apply (IHa k Hk s y Ea).
    + apply (Hk s x E).
  - apply (star_of_length p k Hk s x E).
  - destruct s; [|discriminate]. apply (Hk [] x E).
Qed.
End MatchLength.

(** Every text [scan] reports is the text of a match at some position. *)
Lemma scan_In (r : regex) (s : jstring) (skip : nat) (x : jstring) :
  In x (scan r s skip) ->
  exists s0 rest,
    match_here r s0 Some = Some rest /\
    x = take (length s0 - length rest) s0.
Proof.
  revert skip. induction s as [|c s IH]; intros skip Hx; cbn in Hx.
  - destruct skip; [|contradiction].
    destruct (match_here r [] Some) as [rest|] eqn:E; [|contradiction].
    destruct Hx as [<-|[]]. exists [], rest. split; [exact E|reflexivity].
  - destruct skip as [|n]; [|apply (IH n Hx)].
    destruct (match_here r (c :: s) Some) as [rest|] eqn:E.
    + destruct Hx as [<-|Hx]; [|apply (IH _ Hx)].
      exists (c :: s), rest. split; [exact E|reflexivity].
    + apply (IH _ Hx).
Qed.

(** A match of an expression that starts with a literal starts with that
    literal. *)
Lemma match_literal_first (l : jstring) (r : regex) (s0 rest : jstring) :
  match_here (Seq (Lit l) r) s0 Some = Some rest ->
  exists n,
    take (length s0 - length rest) s0 = l ++ take n (drop (length l) s0).
Proof.
  cbn. destruct (strip_prefix l s0) as [tail|] eqn:El; [|discriminate].
  apply strip_prefix_Some in El. subst s0. intros E.
  pose proof (match_here_length r Some shrinking_Some tail rest E) as Hlen.
  exists (length tail - length rest)%nat.
  rewrite length_app, drop_app_length.
  replace (length l + length tail - length rest)%nat
    with (length l + (length tail - length rest))%nat by lia.
  now rewrite take_app_add.
Qed.

Lemma isV4Format_head (c : code_unit) (x : jstring) :
  digit c = false -> Ip.isV4Format (c :: x) = false.
Proof.
  intros Hc. unfold Ip.isV4Format, Ip.ipv4Regex, Ip.octet.
  cbn [match_here]. now rewrite Hc.
Qed.

Lemma subnet_mask_match_not_v4 (x : jstring) (s : jstring) (skip : nat) :
  In x (scan DataRelay.subnet_mask_regex s skip) -> Ip.isV4Format x = false.
Proof.
  intros Hx. apply scan_In in Hx as (s0 & rest & Hm & ->).
  apply match_literal_first in Hm as (n & ->).
  now apply isV4Format_head.
Qed.

Lemma bcast_match_not_v4 (x : jstring) (s : jstring) (skip : nat) :
  In x (scan DataRelay.bcast_regex s skip) -> Ip.isV4Format x = false.
Proof.
  intros Hx. apply scan_In in Hx as (s0 & rest & Hm & ->).
  unfold DataRelay.bcast_regex in Hm.
  assert (Hcases :
    match_here (Seq (Lit (js "Bcast"))
      (Seq (Lit (js ":")) (StarOf digit_or_dot))) s0 Some = Some rest \/
    match_here (Seq (Lit (js "broadcast"))
      (Seq (Lit (js ":")) (StarOf digit_or_dot))) s0 Some = Some rest).
  { cbn [match_here] in Hm |- *.
    destruct (strip_prefix (js "Bcast") s0) as [t1|].
    - destruct (match strip_prefix (js ":") t1 with
                | Some rest0 => star_of digit_or_dot Some rest0
                | None => None end) as [y|] eqn:E1.
      + left. exact Hm.
      + right. exact Hm.
    - right. exact Hm. }
  destruct Hcases as [Hm'|Hm'];
    apply match_literal_first in Hm' as (n & ->);
    now apply isV4Format_head.
Qed.

Lemma connect_matches_none_v4 (windows : bool) (localIP : jstring)
    (matches calls : list jstring) :
  (forall x, In x matches -> Ip.isV4Format x = false) ->
  DataRelay.connect_matches windows localIP matches calls = Returned calls.
Proof.
  revert calls. induction matches as [|m rest IH]; intros calls Hall;
    [reflexivity|].
  cbn. rewrite (Hall m (or_introl eq_refl)).
  apply IH. intros x Hx. apply Hall. now right.
Qed.

Lemma connect_matches_destinations (windows : bool) (localIP : jstring)
    (matches calls out : list jstring) :
  DataRelay.connect_matches windows localIP matches calls = Returned out ->
  exists added,
    out = calls ++ added /\
    Forall (fun d => exists m,
              In m matches /\ Ip.isV4Format m = true /\
              if windows
              then exists inverted,
                     Ip.not m = Some inverted /\ Ip.or inverted localIP = Some d
              else d = m) added.
Proof.
  revert calls. induction matches as [|m rest IH]; intros calls E; cbn in E.
  - injection E as <-. exists []. split; [now rewrite app_nil_r|constructor].
  - assert (Hweak : forall added,
      Forall (fun d => exists m0, In m0 rest /\ Ip.isV4Format m0 = true /\
                if windows
                then exists inverted, Ip.not m0 = Some inverted /\
                                      Ip.or inverted localIP = Some d
                else d = m0) added ->
      Forall (fun d => exists m0, In m0 (m :: rest) /\
                Ip.isV4Format m0 = true /\
                if windows
                then exists inverted, Ip.not m0 = Some inverted /\
                                      Ip.or inverted localIP = Some d
                else d = m0) added).
    { intros added Hf. revert Hf. apply List.Forall_impl.
      intros d (m0 & Hin & Hrest). exists m0. split; [now right|exact Hrest]. }
    destruct (Ip.isV4Format m) eqn:V.
    + destruct windows.
      * destruct (Ip.not m) as [inv|] eqn:En; [|discriminate].
        destruct (Ip.or inv localIP) as [b|] eqn:Eo; [|discriminate].
        destruct (IH _ E) as (added & -> & Hf).
        exists (b :: added). split; [now rewrite <- app_assoc|].
        constructor; [|apply Hweak, Hf].
        exists m. split; [now left|]. split; [exact V|]. now exists inv.
      * destruct (IH _ E) as (added & -> & Hf).
        exists (m :: added). split; [now rewrite <- app_assoc|].
        constructor; [|apply Hweak, Hf].
        exists m. split; [now left|]. split; [exact V|reflexivity].
    + destruct (IH _ E) as (added & -> & Hf).
      exists added. split; [reflexivity|]. apply Hweak, Hf.
Qed.

(** Byte by byte, [ip.or(ip.not(mask), address)] sets the bits the mask
    leaves clear and keeps the bits of the address. *)
Lemma broadcast_byte_bits (mask address : N) (i : N) :
  i < 8 ->
  N.testbit (N.lor (N.lxor 255 mask) address) i
  = negb (N.testbit mask i) || N.testbit address i.
Proof.
  intros Hi. rewrite N.lor_spec, N.lxor_spec.
  replace (N.testbit 255 i) with true; [now destruct (N.testbit mask i)|].
  assert (Hc : i = 0 \/ i = 1 \/ i = 2 \/ i = 3 \/ i = 4 \/ i = 5 \/ i = 6
               \/ i = 7) by lia.
  destruct Hc as [->|[->|[->|[->|[->|[->|[->| ->]]]]]]]; reflexivity.
Qed.

(** C5, on the code. [stdout.match] with the [g] flag returns the whole
    matched texts ("Subnet Mask . . . : 255.255.255.0", "Bcast:192.168.1.255"),
    never the group with the address, and [ip.isV4Format] rejects every one
    of them: whatever the platform, the output of the command and the local
    address, [findUDP] returns without a single call of [connectUDP], so no
    datagram has a destination. For the interface 192.168.1.7 with mask
    255.255.255.0 the formula gives 192.168.1.255, the address the loop would
    use if it were given the mask itself; on that output of [ipconfig], and of
    [ifconfig], nothing is called. *)
Theorem findUDP_never_calls_connectUDP :
  (forall platform stdout localIP,
     DataRelay.findUDP platform (DataRelay.ExecOk stdout) localIP
     = Returned []) /\
  match_g DataRelay.subnet_mask_regex Scenario.ipconfig_output
  = Some [js "Subnet Mask . . . . . . . . . . . : 255.255.255.0"] /\
  DataRelay.findUDP (js "win32") (DataRelay.ExecOk Scenario.ipconfig_output)
    (js "192.168.1.7") = Returned [] /\
  match_g DataRelay.bcast_regex Scenario.ifconfig_output
  = Some [js "Bcast:192.168.1.255"] /\
  DataRelay.findUDP (js "linux") (DataRelay.ExecOk Scenario.ifconfig_output)
    (js "192.168.1.7") = Returned [] /\
  Ip.not (js "255.255.255.0") = Some (js "0.0.0.255") /\
  Ip.or (js "0.0.0.255") (js "192.168.1.7") = Some (js "192.168.1.255") /\
  DataRelay.connect_matches true (js "192.168.1.7") [js "255.255.255.0"] []
  = Returned [js "192.168.1.255"].
Proof.
  split.
  - intros platform stdout localIP. unfold DataRelay.findUDP, match_g.
    destruct (includes (js "win") platform).
    + destruct (scan DataRelay.subnet_mask_regex stdout 0) as [|m l] eqn:E;
        [reflexivity|].
      apply connect_matches_none_v4. intros x Hx.
      apply (subnet_mask_match_not_v4 x stdout 0%nat). now rewrite E.
    + destruct (scan DataRelay.bcast_regex stdout 0) as [|m l] eqn:E;
        [reflexivity|].
      apply connect_matches_none_v4. intros x Hx.
      apply (bcast_match_not_v4 x stdout 0%nat). now rewrite E.
  - repeat split; vm_compute; reflexivity.
Qed.

(** *** Discovery: one attempt *)

Section AttemptFacts.
Context (broadcastIP localIP port : jstring).

Lemma attempt_inv_init : attempt_inv DataRelay.connectUDP.
Proof. unfold attempt_inv. cbn. repeat split; try discriminate; lia. Qed.

(** Every callback keeps the invariant, and the only one that can end in an
    exception is the completion of a failed send. *)
Lemma handle_keeps_inv (e : DataRelay.event) (a : DataRelay.attempt) :
  attempt_inv a -> DataRelay.deliverable e a = true ->
  attempt_inv (state_of (DataRelay.handle broadcastIP localIP port e a)) /\
  (returned (DataRelay.handle broadcastIP localIP port e a) = true \/
   exists err, e = DataRelay.Sent (Some err)).
Proof.
  unfold attempt_inv. intros Hinv Hd.
  destruct a as [ho li uo ta sp cl ts co dg].
  destruct e as [lp|msg addr|[err|]| |];
    unfold DataRelay.handle, DataRelay.on_message, DataRelay.on_timeout,
      DataRelay.on_error, DataRelay.server_close, DataRelay.disarm,
      DataRelay.on_listening, DataRelay.on_close, DataRelay.on_sent,
      DataRelay.complete_send;
    cbn in *;
    destruct ho, li, uo, ta; cbn in *; try discriminate Hd;
    try (exfalso; intuition discriminate);
    (split; [intuition (try discriminate; try lia)|]);
    first [left; reflexivity | right; eexists; reflexivity].
Qed.

Lemma run_events_inv (es : list DataRelay.event) (a : DataRelay.attempt) :
  attempt_inv a ->
  attempt_inv (DataRelay.run_events broadcastIP localIP port es a).
Proof.
  revert a. induction es as [|e es IH]; intros a Ha; [exact Ha|].
  cbn. destruct (DataRelay.deliverable e a) eqn:Hd; [|now apply IH].
  apply IH. now apply handle_keeps_inv.
Qed.








End AttemptFacts.




(** ** Further properties of the code *)

(** *** The other validators *)

Section ValidatorRanges.
Context `{Runtime}.

Lemma isValidNumber_valid (v : jsval) :
  truthy (Validator.isValidNumber v) = true <-> valid_number v.
Proof.
  unfold valid_number. rewrite <- isValidNumber_true.
  destruct (isValidNumber_cases v) as [E|E]; rewrite E; cbn;
    split; congruence.
Qed.

(** The shape shared by the tests with two bounds, and with one. *)
Lemma two_bound_test (v : jsval) (a b : bool) :
  (if truthy (js_and (js_and (Validator.isValidNumber v) (VBool a)) (VBool b))
   then true else false) = true <->
  valid_number v /\ a = true /\ b = true.
Proof.
  rewrite <- isValidNumber_valid.
  destruct (isValidNumber_cases v) as [E|E]; rewrite E; unfold js_and; cbn;
    destruct a, b; cbn; intuition congruence.
Qed.

Lemma one_bound_test (v : jsval) (a : bool) :
  (if truthy (js_and (Validator.isValidNumber v) (VBool a))
   then true else false) = true <->
  valid_number v /\ a = true.
Proof.
  rewrite <- isValidNumber_valid.
  destruct (isValidNumber_cases v) as [E|E]; rewrite E; unfold js_and; cbn;
    destruct a; cbn; intuition congruence.
Qed.

Lemma no_bound_test (v : jsval) :
  (if truthy (Validator.isValidNumber v) then true else false) = true <->
  valid_number v.
Proof.
  rewrite <- isValidNumber_valid.
  destruct (truthy (Validator.isValidNumber v)); intuition congruence.
Qed.

Lemma isValidHeading_spec (v : jsval) :
  Validator.isValidHeading v = true <-> valid_number v /\ between 0 360 v.
Proof. unfold Validator.isValidHeading, between. apply two_bound_test. Qed.

Lemma isValidThrottle_spec (v : jsval) :
  Validator.isValidThrottle v = true <-> valid_number v /\ between 0 100 v.
Proof. unfold Validator.isValidThrottle, between. apply two_bound_test. Qed.

Lemma isValidRoll_between (v : jsval) :
  Validator.isValidRoll v = true <-> valid_number v /\ between (-180) 180 v.
Proof. unfold Validator.isValidRoll, between. apply two_bound_test. Qed.

Lemma isValidSpeed_spec (v : jsval) :
  Validator.isValidSpeed v = true <->
  valid_number v /\ num_ge (ToNumber v) (num_of_Z 0) = true.
Proof. unfold Validator.isValidSpeed. apply one_bound_test. Qed.

Lemma isValidYaw_spec (v : jsval) :
  Validator.isValidYaw v = true <-> valid_number v.
Proof. unfold Validator.isValidYaw. apply no_bound_test. Qed.

Lemma validators_imply_yaw (v : jsval) (f : jsval -> bool) :
  In f validators -> f v = true -> Validator.isValidYaw v = true.
Proof.
  intros Hf E. apply isValidYaw_spec.
  unfold validators in Hf. cbn in Hf.
  destruct Hf as [<-|[<-|[<-|[<-|[<-|[<-|[<-|[<-|[<-|[<-|[]]]]]]]]]]].
  - now apply isValidRoll_between in E.
  - now apply isValidRoll_between in E.
  - now apply isValidYaw_spec in E.
  - now apply isValidHeading_spec in E.
  - now apply isValidSpeed_spec in E.
  - now apply isValidSpeed_spec in E.
  - now apply isValidThrottle_spec in E.
  - now apply isValidYaw_spec in E.
  - now apply isValidYaw_spec in E.
  - now apply isValidYaw_spec in E.
Qed.

(** Comparison of numbers is transitive. *)
Lemma num_le_trans (a b c : number) :
  num_le a b = true -> num_le b c = true -> num_le a c = true.
Proof.
  destruct a as [| | |p], b as [| | |q], c as [| | |r]; cbn;
    try discriminate; try reflexivity.
  rewrite !Qle_bool_iff. apply Qle_trans.
Qed.
End ValidatorRanges.

(** X1. [isValidHeading] accepts exactly the inputs that are neither
    undefined nor null, are not NaN and whose [Number] lies between 0 and 360,
    and [isValidThrottle] those between 0 and 100, bounds included in both;
    so a negative value, 360.5 for a heading or 101 for a throttle is
    refused, and [Infinity] by both. *)
Theorem heading_and_throttle_ranges `{Runtime} (v : jsval) :
  (Validator.isValidHeading v = true <-> valid_number v /\ between 0 360 v) /\
  (Validator.isValidThrottle v = true <-> valid_number v /\ between 0 100 v) /\
  Validator.isValidHeading (VNum PosInf) = false /\
  Validator.isValidThrottle (VNum PosInf) = false /\
  Validator.isValidHeading (VNum (num_of_Z 360)) = true /\
  Validator.isValidHeading (VNum (Fin (721 # 2))) = false /\
  Validator.isValidThrottle (VNum (num_of_Z 101)) = false /\
  Validator.isValidThrottle (VNum (num_of_Z (-1))) = false.
Proof.
  split; [apply isValidHeading_spec|]. split; [apply isValidThrottle_spec|].
  repeat split.
Qed.

(** X2. [isValidSpeed] and [isValidAltitude] accept exactly the valid numbers
    whose [Number] is at least 0: there is no upper bound, every number from 0
    up is accepted, [Infinity] included, and every negative one refused. *)
Theorem speed_and_altitude_have_no_upper_bound `{Runtime} :
  (forall v, Validator.isValidSpeed v = true <->
             valid_number v /\ num_ge (ToNumber v) (num_of_Z 0) = true) /\
  (forall v, Validator.isValidAltitude v = Validator.isValidSpeed v) /\
  (forall q : Q, (0 <= q)%Q -> Validator.isValidSpeed (VNum (Fin q)) = true) /\
  (forall q : Q, (q < 0)%Q -> Validator.isValidSpeed (VNum (Fin q)) = false) /\
  Validator.isValidSpeed (VNum PosInf) = true /\
  Validator.isValidSpeed (VNum NegInf) = false.
Proof.
  split; [exact isValidSpeed_spec|]. split; [reflexivity|].
  split; [|split; [|split; reflexivity]].
  - intros q Hq. apply isValidSpeed_spec. split.
    + repeat split; discriminate.
    + cbn. now apply Qle_bool_iff.
  - intros q Hq. destruct (Validator.isValidSpeed (VNum (Fin q))) eqn:E;
      [|reflexivity].
    apply isValidSpeed_spec in E as [_ E]. cbn in E.
    apply Qle_bool_iff in E. exfalso. apply (Qlt_not_le _ _ Hq E).
Qed.

(** X3. [isValidYaw], [isValidFlap], [isValidLatitude] and
    [isValidLongitude] are one and the same test, that of [isValidNumber]:
    they check no range at all, so every number that is not NaN passes (a
    latitude of 1000, an infinite longitude), and only undefined, null and the
    values whose [Number] is NaN are refused. *)
Theorem unranged_validators_accept_every_number `{Runtime} :
  (forall v, Validator.isValidYaw v = true <-> valid_number v) /\
  (forall v, Validator.isValidFlap v = Validator.isValidYaw v /\
             Validator.isValidLatitude v = Validator.isValidYaw v /\
             Validator.isValidLongitude v = Validator.isValidYaw v) /\
  (forall n : number, is_nan n = false ->
     Validator.isValidLatitude (VNum n) = true /\
     Validator.isValidLongitude (VNum n) = true) /\
  Validator.isValidLatitude (VNum (num_of_Z 1000)) = true.
Proof.
  split; [exact isValidYaw_spec|]. split; [now repeat split|].
  split; [|reflexivity].
  intros n Hn.
  assert (Validator.isValidYaw (VNum n) = true) as E.
  { apply isValidYaw_spec. repeat split; try discriminate. exact Hn. }
  split; exact E.
Qed.

(** X4. The ranges are nested as their bounds are: what [isValidThrottle]
    accepts is accepted by [isValidHeading] and by [isValidRoll]; what
    [isValidHeading] accepts is accepted by [isValidSpeed]; what passes both
    [isValidRoll] and [isValidSpeed] passes [isValidHeading]; and whatever any
    of the ten validators accepts is accepted by [isValidYaw]. *)
Theorem validator_ranges_are_nested `{Runtime} (v : jsval) :
  (Validator.isValidThrottle v = true ->
     Validator.isValidHeading v = true /\ Validator.isValidRoll v = true) /\
  (Validator.isValidHeading v = true -> Validator.isValidSpeed v = true) /\
  (Validator.isValidRoll v = true -> Validator.isValidSpeed v = true ->
     Validator.isValidHeading v = true) /\
  (forall f, In f validators -> f v = true -> Validator.isValidYaw v = true).
Proof.
  assert (H100 : num_le (num_of_Z 100) (num_of_Z 180) = true) by reflexivity.
  assert (H100' : num_le (num_of_Z 100) (num_of_Z 360) = true)
    by reflexivity.
  assert (H180 : num_le (num_of_Z 180) (num_of_Z 360) = true) by reflexivity.
  assert (Hneg : num_le (num_of_Z (-180)) (num_of_Z 0) = true)
    by reflexivity.
  split; [|split; [|split]].
  - intros E. apply isValidThrottle_spec in E as (Hv & Hlo & Hhi). split.
    + apply isValidHeading_spec. split; [exact Hv|]. split; [exact Hlo|].
      apply (num_le_trans _ _ _ Hhi H100').
    + apply isValidRoll_between. split; [exact Hv|]. split.
      * unfold num_ge in *. apply (num_le_trans _ _ _ Hneg Hlo).
      * apply (num_le_trans _ _ _ Hhi H100).
  - intros E. apply isValidHeading_spec in E as (Hv & Hlo & _).
    apply isValidSpeed_spec. now split.
  - intros Er Es. apply isValidRoll_between in Er as (Hv & _ & Hhi).
    apply isValidSpeed_spec in Es as (_ & Hlo).
    apply isValidHeading_spec. split; [exact Hv|]. split; [exact Hlo|].
    apply (num_le_trans _ _ _ Hhi H180).
  - intros f Hf E. now apply (validators_imply_yaw v f).
Qed.

(** X5. Values that are not numbers but convert to one: the empty string
    (whose [Number] is 0) and both booleans (1 and 0) are accepted by every
    one of the ten validators, while null, whose [Number] is 0 as well, is
    refused by all of them, as are undefined and every value whose [Number]
    is NaN. *)
Theorem validators_on_values_that_are_not_numbers `{Runtime}
    (f : jsval -> bool) :
  In f validators ->
  f (VStr []) = true /\
  (forall b : bool, f (VBool b) = true) /\
  f VNull = false /\
  f VUndefined = false /\
  (forall v, isNaN v = true -> f v = false).
Proof.
  intros Hf.
  assert (Hyaw : forall v, f v = true -> valid_number v).
  { intros v E. apply isValidYaw_spec.
    now apply (validators_imply_yaw v f). }
  assert (Hrej : forall v, ~ valid_number v -> f v = false).
  { intros v Hn. destruct (f v) eqn:E; [|reflexivity].
    exfalso. apply Hn. now apply Hyaw. }
  split; [|split; [|split; [|split]]].
  - unfold validators in Hf. cbn in Hf.
    assert (Hv : valid_number (VStr [])).
    { unfold valid_number, isNaN. cbn. rewrite StringToNumber_empty.
      repeat split; discriminate. }
    assert (Hz : ToNumber (VStr []) = Fin 0) by apply StringToNumber_empty.
    destruct Hf as [<-|[<-|[<-|[<-|[<-|[<-|[<-|[<-|[<-|[<-|[]]]]]]]]]]];
      first [ apply isValidRoll_between | apply isValidYaw_spec
            | apply isValidHeading_spec | apply isValidSpeed_spec
            | apply isValidThrottle_spec ];
      try exact Hv; (split; [exact Hv|]); unfold between, num_ge;
      rewrite Hz; repeat split.
  - intros b. unfold validators in Hf. cbn in Hf.
    destruct Hf as [<-|[<-|[<-|[<-|[<-|[<-|[<-|[<-|[<-|[<-|[]]]]]]]]]]];
      destruct b; reflexivity.
  - apply Hrej. intros (_ & Hn & _). now apply Hn.
  - apply Hrej. intros (Hu & _). now apply Hu.
  - intros v Hnan. apply Hrej. intros (_ & _ & E). congruence.
Qed.

Section ValidatorRangeExamples.
Local Existing Instance Sample.runtime.

(** The heading validator on the empty string, a boolean and null. *)
Lemma validators_on_values_that_are_not_numbers_witness :
  Validator.isValidHeading (VStr (js "")) = true /\
  Validator.isValidHeading (VBool true) = true /\
  Validator.isValidHeading VNull = false /\
  Validator.isValidHeading (VStr (js "north")) = false.
Proof.
  destruct (validators_on_values_that_are_not_numbers
              Validator.isValidHeading) as (He & Hb & Hn & _ & Hnan).
  { cbn. tauto. }
  split; [exact He|]. split; [exact (Hb true)|]. split; [exact Hn|].
  apply Hnan. reflexivity.
Defined.

End ValidatorRangeExamples.

(** *** The command sender *)

Section CommandFacts.
Context `{Runtime}.

Lemma send_cases (r : Commands.request) (s : Commands.env) :
  Commands.send r s =
  match Commands.data_relay (Commands.net s) with
  | None =>
      Returned (Commands.log (Commands.LoggerWarn
        (js "Cannot send command as the data_relay connection has "
         ++ js "not yet been established")) s)
  | Some w =>
      if Commands.accepted r then
        Returned
          {| Commands.net :=
               {| Commands.data_relay := Some (w ++ [Commands.line_of r]) |};
             Commands.logged := Commands.logged s |}
      else
        Returned (Commands.log (Commands.LoggerError
          (match r with
           | Commands.Roll v =>
               js "Command to not sent since invalid roll value detected! Roll:"
               ++ ToString v
           | Commands.Pitch v =>
               js ("Command to not sent since invalid pitch value detected! "
                   ++ "Pitch:") ++ ToString v
           | Commands.Heading v =>
               js ("Command to not sent since invalid heading value "
                   ++ "detected! Heading:") ++ ToString v
           end)) s)
  end.
Proof.
  destruct s as [[[w|]] lg], r as [v|v|v];
    unfold Commands.send, Commands.sendRoll, Commands.sendPitch,
      Commands.sendHeading, Commands.checkConnection, Commands.sendCommand,
      Commands.accepted, Commands.line_of;
    cbn [Commands.net Commands.data_relay Commands.logged];
    reflexivity.
Qed.
End CommandFacts.

(** X6. A call of [sendRoll], [sendPitch] or [sendHeading] always returns
    and does exactly one thing. Without a data_relay connection it logs one
    warning and writes nothing, whatever the value (the validator is not
    consulted). With a connection and a value its validator accepts it writes
    one line, the command name, a colon, the text of the value and "\r\n",
    and logs nothing. With a connection and a refused value it logs one error
    and writes nothing. *)
Theorem send_does_exactly_one_thing `{Runtime}
    (r : Commands.request) (s : Commands.env) :
  exists s',
    Commands.send r s = Returned s' /\
    match Commands.data_relay (Commands.net s) with
    | None =>
        Commands.net s' = Commands.net s /\
        exists msg,
          Commands.logged s' =
          Commands.logged s ++ [Commands.LoggerWarn msg]
    | Some w =>
        if Commands.accepted r then
          Commands.data_relay (Commands.net s')
            = Some (w ++ [Commands.line_of r]) /\
          Commands.logged s' = Commands.logged s
        else
          Commands.net s' = Commands.net s /\
          exists msg,
            Commands.logged s' =
            Commands.logged s ++ [Commands.LoggerError msg]
    end.
Proof.
  rewrite send_cases.
  destruct s as [[[w|]] lg]; cbn [Commands.net Commands.data_relay].
  - destruct (Commands.accepted r); eexists; (split; [reflexivity|]); cbn.
    + split; reflexivity.
    + split; [reflexivity|]. eexists. reflexivity.
  - eexists. split; [reflexivity|]. cbn. split; [reflexivity|].
    eexists. reflexivity.
Qed.

(** X7. A series of requests on an open connection returns, and what it adds
    to the connection is the lines of the accepted requests, in the order of
    the calls, after what had been written before: a refused request leaves
    no trace in the stream, only one entry in the log. Without a connection
    the series writes nothing and logs one warning per request. *)
Theorem send_all_writes_the_accepted_requests `{Runtime}
    (rs : list Commands.request) (s : Commands.env) :
  exists s',
    Commands.send_all rs s = Returned s' /\
    match Commands.data_relay (Commands.net s) with
    | Some w =>
        Commands.data_relay (Commands.net s')
          = Some (w ++ map Commands.line_of (List.filter Commands.accepted rs)) /\
        length (Commands.logged s') =
          (length (Commands.logged s)
           + length (List.filter (fun r => negb (Commands.accepted r)) rs))%nat
    | None =>
        Commands.net s' = Commands.net s /\
        length (Commands.logged s') =
          (length (Commands.logged s) + length rs)%nat
    end.
Proof.
  revert s. induction rs as [|r rs IH]; intros s.
  - exists s. split; [reflexivity|].
    destruct (Commands.data_relay (Commands.net s)); cbn;
      rewrite ?app_nil_r; split; try reflexivity; lia.
  - cbn [Commands.send_all]. rewrite send_cases.
    destruct s as [[[w|]] lg]; cbn [Commands.net Commands.data_relay].
    + destruct (Commands.accepted r) eqn:A.
      * match goal with |- context [Commands.send_all rs ?s1] =>
          destruct (IH s1) as (s' & E & Hw & Hl) end.
        exists s'. split; [exact E|]. cbn in Hw, Hl |- *. rewrite A. cbn.
        split; [now rewrite Hw, <- app_assoc|exact Hl].
      * match goal with |- context [Commands.send_all rs ?s1] =>
          destruct (IH s1) as (s' & E & Hw & Hl) end.
        exists s'. split; [exact E|]. cbn in Hw, Hl |- *. rewrite A. cbn.
        split; [exact Hw|]. rewrite Hl, length_app. cbn. lia.
    + match goal with |- context [Commands.send_all rs ?s1] =>
        destruct (IH s1) as (s' & E & Hn & Hl) end.
      exists s'. split; [exact E|]. cbn in Hn, Hl |- *.
      split; [exact Hn|]. rewrite Hl, length_app. cbn. lia.
Qed.

(** *** The Header List *)

Lemma split_length (sep : code_unit) (s : jstring) :
  length (split sep s) = S (count_occ N.eq_dec s sep).
Proof.
  induction s as [|c r IH]; [reflexivity|].
  cbn [split count_occ]. destruct (N.eqb_spec c sep) as [->|Hne].
  - destruct (N.eq_dec sep sep); [|contradiction]. cbn. now rewrite IH.
  - destruct (N.eq_dec c sep); [contradiction|].
    pose proof (split_nonempty sep r).
    destruct (split sep r); [contradiction|]. exact IH.
Qed.

Lemma split_without_sep (sep : code_unit) (t : jstring) :
  ~ In sep t -> split sep t = [t].
Proof.
  induction t as [|c t IH]; intros Hn; [reflexivity|].
  cbn [split]. destruct (N.eqb_spec c sep) as [->|Hne].
  - exfalso. apply Hn. now left.
  - rewrite IH; [reflexivity|]. intros Hi. apply Hn. now right.
Qed.

Lemma split_app_sep (sep : code_unit) (t r : jstring) :
  ~ In sep t -> split sep (t ++ sep :: r) = t :: split sep r.
Proof.
  induction t as [|c t IH]; intros Hn.
  - cbn. now rewrite N.eqb_refl.
  - cbn [app split]. destruct (N.eqb_spec c sep) as [->|Hne].
    + exfalso. apply Hn. now left.
    + rewrite IH; [reflexivity|]. intros Hi. apply Hn. now right.
Qed.

Lemma split_join (sep : code_unit) (l : list jstring) :
  l <> [] -> Forall (fun t => ~ In sep t) l -> split sep (join sep l) = l.
Proof.
  induction l as [|t l IH]; intros Hne Hall; [contradiction|].
  inversion Hall as [|? ? Ht Hl]; subst.
  destruct l as [|t' l'].
  - cbn. now apply split_without_sep.
  - cbn [join]. rewrite split_app_sep by exact Ht.
    f_equal. apply IH; [discriminate|exact Hl].
Qed.

Lemma trim_start_fixed (x : jstring) :
  match x with [] => True | c :: _ => is_white c = false end ->
  trim_start x = x.
Proof. destruct x as [|c x]; [reflexivity|]. cbn. now intros ->. Qed.

Lemma trim_fixed (x : jstring) :
  match x with [] => True | c :: _ => is_white c = false end ->
  match rev x with [] => True | c :: _ => is_white c = false end ->
  trim x = x.
Proof.
  intros Hh Hl. unfold trim, trim_end.
  rewrite (trim_start_fixed x Hh), (trim_start_fixed (rev x) Hl).
  apply rev_involutive.
Qed.

Lemma trim_idempotent (s : jstring) : trim (trim s) = trim s.
Proof.
  destruct (trim_spec s) as (a & b & _ & _ & _ & Hh & Hl).
  now apply trim_fixed.
Qed.

Lemma trim_keeps_out (c : code_unit) (t : jstring) :
  ~ In c t -> ~ In c (trim t).
Proof.
  intros Hn Hi. apply Hn.
  destruct (trim_spec t) as (a & b & E & _). rewrite E.
  apply in_or_app. right. apply in_or_app. now left.
Qed.

(** X8. The Header List [setHeadersFromString] stores has one entry more
    than the text has commas, whatever the previous list was: it is never
    empty (the empty text gives one header, the empty name), and neither a
    leading, a trailing nor a doubled comma is skipped, each gives an empty
    name. *)
Theorem header_count_is_commas_plus_one
    (text : jstring) (this : TelemetryData.t) :
  length (TelemetryData.headers
            (TelemetryData.setHeadersFromString text this))
  = S (count_occ N.eq_dec text comma) /\
  TelemetryData.headers (TelemetryData.setHeadersFromString [] this) = [[]] /\
  TelemetryData.headers
    (TelemetryData.setHeadersFromString (js ",a,,b,") this)
  = [[]; js "a"; []; js "b"; []].
Proof.
  split; [|split; reflexivity].
  cbn. rewrite length_map. apply split_length.
Qed.

Lemma headers_round_trip_aux (hs : list jstring) (this : TelemetryData.t) :
  hs <> [] ->
  Forall (fun h => ~ In comma h /\ trim h = h) hs ->
  TelemetryData.headers
    (TelemetryData.setHeadersFromString (join comma hs) this) = hs.
Proof.
  intros Hne Hall. cbn.
  rewrite split_join; [|exact Hne|].
  - induction Hall as [|h l [_ Hh] _ IH]; [reflexivity|].
    cbn. rewrite Hh. f_equal. destruct l; [reflexivity|].
    apply IH. discriminate.
  - revert Hall. apply List.Forall_impl. now intros h [Hc _].
Qed.

(** X9. Round trip: a list of headers that is not empty, none of which
    holds a comma or starts or ends with white space, is what
    [setHeadersFromString] stores when given these headers joined by
    commas. *)
Theorem headers_round_trip (hs : list jstring) (this : TelemetryData.t) :
  hs <> [] ->
  Forall (fun h => ~ In comma h /\ trim h = h) hs ->
  TelemetryData.headers
    (TelemetryData.setHeadersFromString (join comma hs) this) = hs.
Proof. apply headers_round_trip_aux. Qed.

(** The headers lat, lon, alt. *)
Lemma headers_round_trip_witness :
  TelemetryData.headers
    (TelemetryData.setHeadersFromString (js "lat,lon,alt")
       TelemetryData.create)
  = [js "lat"; js "lon"; js "alt"].
Proof.
  apply (headers_round_trip [js "lat"; js "lon"; js "alt"]
           TelemetryData.create).
  - discriminate.
  - repeat constructor; try reflexivity;
      cbn; intros Hc; repeat destruct Hc as [Hc|Hc]; try discriminate Hc;
      exact Hc.
Defined.

(** X10. The stored Header List is in normal form: joining it by commas and
    parsing the result again stores the same list, whatever text it came
    from; in particular trimming a header twice changes nothing. *)
Theorem header_list_is_a_normal_form
    (text : jstring) (this other : TelemetryData.t) :
  let hs := TelemetryData.headers
              (TelemetryData.setHeadersFromString text this) in
  TelemetryData.headers
    (TelemetryData.setHeadersFromString (join comma hs) other) = hs /\
  Forall (fun h => trim h = h /\ ~ In comma h) hs.
Proof.
  cbn zeta.
  assert (Hall : Forall (fun h => ~ In comma h /\ trim h = h)
                   (TelemetryData.headers
                      (TelemetryData.setHeadersFromString text this))).
  { cbn. apply List.Forall_forall. intros h Hh.
    apply in_map_iff in Hh as (t & <- & Ht). split.
    - apply trim_keeps_out.
      pose proof (split_no_sep comma text) as Hs.
      rewrite List.Forall_forall in Hs. now apply Hs.
    - apply trim_idempotent. }
  split.
  - apply headers_round_trip_aux; [|exact Hall].
    cbn. apply headers_after_header_frame.
  - revert Hall. apply List.Forall_impl. now intros h [? ?].
Qed.

(** *** The callbacks of the stream connection *)

Lemma trim_start_all_white (s : jstring) :
  forallb is_white s = true -> trim_start s = [].
Proof.
  induction s as [|c r IH]; [reflexivity|]. cbn.
  intros E. apply andb_true_iff in E as [-> Hr]. now apply IH.
Qed.

Lemma white_text_has_no_comma (s : jstring) :
  forallb is_white s = true -> ~ In comma s.
Proof.
  intros E Hi. rewrite forallb_forall in E. now specialize (E comma Hi).
Qed.

(** X11. A first frame that holds white space only (a blank line, say) is
    not dropped: it passes the blank test, is taken as the header frame and
    leaves a Header List of one header, the empty name. The list is then not
    empty, so the frame that follows, the real header line included, is
    decoded as data. *)
Theorem white_first_frame_becomes_the_header_list `{Runtime} {P : Type}
    (reg : @TelemetryData.registry P DataRelay.world)
    (now : TelemetryData.timestamp) (text : jstring) (w : DataRelay.world) :
  text <> [] ->
  forallb is_white text = true ->
  TelemetryData.headers (DataRelay.telemetry w) = [] ->
  exists w1,
    DataRelay.on_data reg now (VStr text) w = Returned w1 /\
    TelemetryData.headers (DataRelay.telemetry w1) = [[]] /\
    forall now' data, truthy data = true ->
      DataRelay.on_data reg now' data w1
      = DataRelay.parseData reg now' (ToString data) w1.
Proof.
  intros Hne Hw Hh.
  assert (T : truthy (VStr text) = true) by (now destruct text).
  rewrite (on_data_truthy reg now (VStr text) w T), Hh.
  eexists. split; [reflexivity|].
  assert (Hhs : TelemetryData.headers
                  (DataRelay.telemetry
                     (DataRelay.parseHeaders (ToString (VStr text)) w))
                = [[]]).
  { rewrite parseHeaders_result. cbn.
    rewrite (split_without_sep comma text (white_text_has_no_comma text Hw)).
    cbn. unfold trim. now rewrite (trim_start_all_white text Hw). }
  split; [exact Hhs|].
  intros now' data T'. rewrite (on_data_truthy reg now' data _ T'), Hhs.
  reflexivity.
Qed.

Section StreamRunFacts.
Context `{Runtime} {P : Type}.
Context (reg : @TelemetryData.registry P DataRelay.world).

Lemma last_set_app (code : jstring) (l1 l2 : list DataRelay.effect)
    (current : option bool) :
  DataRelay.last_set code (l1 ++ l2) current
  = DataRelay.last_set code l2 (DataRelay.last_set code l1 current).
Proof.
  revert current. induction l1 as [|e l1 IH]; intros current; [reflexivity|].
  destruct e; cbn; try apply IH. destruct (decide (code0 = code)); apply IH.
Qed.

(** The calls a frame adds, by the three cases of the handler. *)
Lemma on_data_effects (now : TelemetryData.timestamp) (data : jsval)
    (w : DataRelay.world) :
  DataRelay.effects (state_of (DataRelay.on_data reg now data w)) =
  DataRelay.effects w ++
  if negb (truthy data) then
    [DataRelay.LoggerError
       (js "Got a blank packet from the data relay station. Value: "
        ++ ToString data)]
  else
    match TelemetryData.headers (DataRelay.telemetry w) with
    | [] =>
        [DataRelay.CheckForMissingHeaders
           (map trim (split comma (ToString data)));
         DataRelay.LoggerDebug
           (js "Network data_relay Received headers: " ++ ToString data);
         DataRelay.LoggerData
           (DataRelay.JsonHeaders (map trim (split comma (ToString data))))
           (js "DATA_RELAY_HEADERS");
         DataRelay.AddStatus (js "Received headers from data_relay") 3 3000]
    | _ :: _ =>
        [DataRelay.LoggerData
           (DataRelay.JsonState
              (TelemetryData.zip_state
                 (TelemetryData.headers (DataRelay.telemetry w))
                 (split comma (ToString data)) ∅))
           (js "DATA_RELAY_DATA");
         DataRelay.SetStatusCode (js "TIMEOUT_DATA_RELAY") false]
    end.
Proof.
  destruct (truthy data) eqn:T; cbn [negb].
  - rewrite (on_data_truthy reg now data w T).
    destruct (TelemetryData.headers (DataRelay.telemetry w)) eqn:E.
    + now rewrite parseHeaders_result.
    + rewrite parseData_returns. cbn. now rewrite E.
  - now rewrite (on_data_falsy reg now data w T).
Qed.

Lemma blank_run (frames : list (TelemetryData.timestamp * jsval))
    (w : DataRelay.world) :
  Forall (fun f => truthy (snd f) = false) frames ->
  DataRelay.telemetry (DataRelay.run reg frames w) = DataRelay.telemetry w /\
  DataRelay.effects (DataRelay.run reg frames w) =
  DataRelay.effects w ++
  map (fun f => DataRelay.LoggerError
         (js "Got a blank packet from the data relay station. Value: "
          ++ ToString (snd f))) frames.
Proof.
  revert w. induction frames as [|[now data] rest IH]; intros w Hall.
  - cbn. now rewrite app_nil_r.
  - inversion Hall as [|? ? T Hrest]; subst. cbn in T.
    cbn [DataRelay.run]. rewrite (on_data_falsy reg now data w T).
    cbn [state_of].
    match goal with |- context [DataRelay.run reg rest ?w1] =>
      destruct (IH w1 Hrest) as [Ht He] end.
    rewrite Ht, He. cbn. split; [reflexivity|]. now rewrite <- app_assoc.
Qed.
End StreamRunFacts.

(** X12. A run of frames that all fail the blank test (empty strings,
    undefined, null, zero, ...) leaves the telemetry model exactly as it was
    and reports one error per frame, in order, each naming the value it got
    ("... Value: undefined"). *)
Theorem blank_frames_only_report `{Runtime} {P : Type}
    (reg : @TelemetryData.registry P DataRelay.world)
    (frames : list (TelemetryData.timestamp * jsval)) (w : DataRelay.world) :
  Forall (fun f => truthy (snd f) = false) frames ->
  DataRelay.telemetry (DataRelay.run reg frames w) = DataRelay.telemetry w /\
  DataRelay.effects (DataRelay.run reg frames w) =
  DataRelay.effects w ++
  map (fun f => DataRelay.LoggerError
         (js "Got a blank packet from the data relay station. Value: "
          ++ ToString (snd f))) frames.
Proof. apply blank_run. Qed.

(** X13. The timeout status of the link follows the last thing seen: the
    ['timeout'] callback sets TIMEOUT_DATA_RELAY, a data frame (a frame that
    passes the blank test while the Header List is not empty) clears it, and
    nothing else touches it: a header frame, a blank frame, ['connect'],
    ['close'] and ['write'] leave the status as it was, so a header line that
    arrives after a timeout does not clear the timeout. *)
Theorem timeout_status_follows_data_frames `{Runtime} {P : Type}
    (reg : @TelemetryData.registry P DataRelay.world)
    (w : DataRelay.world) (current : option bool) :
  let flag := fun w' =>
    DataRelay.last_set (js "TIMEOUT_DATA_RELAY") (DataRelay.effects w')
      current in
  flag (state_of (DataRelay.on_event reg DataRelay.IdleTimeout w))
    = Some true /\
  (forall now data,
     truthy data = true ->
     TelemetryData.headers (DataRelay.telemetry w) <> [] ->
     flag (state_of (DataRelay.on_event reg (DataRelay.Data now data) w))
     = Some false) /\
  (forall now data,
     truthy data = false \/
     TelemetryData.headers (DataRelay.telemetry w) = [] ->
     flag (state_of (DataRelay.on_event reg (DataRelay.Data now data) w))
     = flag w) /\
  flag (state_of (DataRelay.on_event reg DataRelay.Connect w)) = flag w /\
  (forall e, flag (state_of (DataRelay.on_event reg (DataRelay.Close e) w))
             = flag w) /\
  (forall d, flag (state_of (DataRelay.on_event reg (DataRelay.Write d) w))
             = flag w).
Proof.
  cbn zeta. split; [|split; [|split; [|split; [|split]]]].
  - cbn. now rewrite last_set_app.
  - intros now data T Hh. cbn [DataRelay.on_event].
    rewrite on_data_effects, T. cbn [negb].
    destruct (TelemetryData.headers (DataRelay.telemetry w));
      [contradiction|].
    now rewrite last_set_app.
  - intros now data Hc. cbn [DataRelay.on_event].
    rewrite on_data_effects, last_set_app.
    destruct (truthy data) eqn:T; cbn [negb]; [|reflexivity].
    destruct Hc as [Hc|Hc]; [discriminate|]. now rewrite Hc.
  - cbn. now rewrite last_set_app.
  - intros e. cbn. now rewrite last_set_app.
  - intros d. cbn. now rewrite last_set_app.
Qed.

Section StatusFacts.
Context `{Runtime} {P : Type}.
Context (reg : @TelemetryData.registry P DataRelay.world).

Lemma on_event_clears_timeout_only (e : DataRelay.tcp_event)
    (w : DataRelay.world) :
  exists l,
    DataRelay.effects (state_of (DataRelay.on_event reg e w))
    = DataRelay.effects w ++ l /\
    Forall clears_timeout_only l.
Proof.
  destruct e as [|e| |d|now data]; cbn [DataRelay.on_event state_of];
    try (eexists; split; [reflexivity|];
         repeat constructor; intros c Hc; discriminate Hc).
  rewrite on_data_effects. eexists. split; [reflexivity|].
  destruct (negb (truthy data));
    [|destruct (TelemetryData.headers (DataRelay.telemetry w))];
    repeat constructor; intros c Hc; try discriminate Hc.
  now injection Hc as <-.
Qed.

Lemma run_connection_clears_timeout_only (es : list DataRelay.tcp_event)
    (w : DataRelay.world) :
  exists l,
    DataRelay.effects (DataRelay.run_connection reg es w)
    = DataRelay.effects w ++ l /\
    Forall clears_timeout_only l.
Proof.
  revert w. induction es as [|e es IH]; intros w.
  - exists []. split; [now rewrite app_nil_r|constructor].
  - cbn [DataRelay.run_connection].
    destruct (on_event_clears_timeout_only e w) as (l1 & E1 & H1).
    destruct (IH (state_of (DataRelay.on_event reg e w))) as (l2 & E2 & H2).
    exists (l1 ++ l2). split.
    + now rewrite E2, E1, <- app_assoc.
    + apply Forall_app. now split.
Qed.

Lemma last_set_stays_true (code : jstring) (l : list DataRelay.effect) :
  code <> js "TIMEOUT_DATA_RELAY" ->
  Forall clears_timeout_only l ->
  DataRelay.last_set code l (Some true) = Some true.
Proof.
  intros Hne Hall. induction Hall as [|x l Hx _ IH]; [reflexivity|].
  destruct x; cbn; try exact IH.
  destruct (decide (code0 = code)) as [->|]; [|exact IH].
  destruct value; [exact IH|]. exfalso. apply Hne. now apply Hx.
Qed.
End StatusFacts.

(** X14. The connection statuses are raised and never lowered: of all the
    status codes the callbacks of [connectTCP] set, TIMEOUT_DATA_RELAY is the
    only one ever set to false. So once ['close'] has been seen
    DISCONNECTED_DATA_RELAY stays true through every later event, a new
    ['connect'] included, and once ['connect'] has been seen
    CONNECTED_DATA_RELAY stays true after ['close']. *)
Theorem connection_statuses_are_never_lowered `{Runtime} {P : Type}
    (reg : @TelemetryData.registry P DataRelay.world)
    (es : list DataRelay.tcp_event) (w : DataRelay.world)
    (current : option bool) :
  (forall code,
     In (DataRelay.SetStatusCode code false)
        (DataRelay.effects (DataRelay.run_connection reg es w)) ->
     In (DataRelay.SetStatusCode code false) (DataRelay.effects w) \/
     code = js "TIMEOUT_DATA_RELAY") /\
  (forall had_error,
     DataRelay.last_set (js "DISCONNECTED_DATA_RELAY")
       (DataRelay.effects
          (DataRelay.run_connection reg (DataRelay.Close had_error :: es) w))
       current = Some true) /\
  DataRelay.last_set (js "CONNECTED_DATA_RELAY")
    (DataRelay.effects
       (DataRelay.run_connection reg (DataRelay.Connect :: es) w))
    current = Some true.
Proof.
  split; [|split].
  - intros code Hin.
    destruct (run_connection_clears_timeout_only reg es w) as (l & E & Hl).
    rewrite E in Hin. apply in_app_or in Hin as [Hin|Hin]; [now left|].
    right. rewrite List.Forall_forall in Hl. now apply (Hl _ Hin).
  - intros e. cbn [DataRelay.run_connection DataRelay.on_event state_of].
    destruct (run_connection_clears_timeout_only reg es
                (DataRelay.on_tcp_close e w)) as (l & -> & Hl).
    cbn. rewrite !last_set_app. cbn.
    apply last_set_stays_true; [discriminate|exact Hl].
  - cbn [DataRelay.run_connection DataRelay.on_event state_of].
    destruct (run_connection_clears_timeout_only reg es
                (DataRelay.on_connect w)) as (l & -> & Hl).
    cbn. rewrite !last_set_app. cbn.
    apply last_set_stays_true; [discriminate|exact Hl].
Qed.

(** *** The addresses of [findUDP] *)

Lemma byte_text_ok_all (b : N) : b < 256 -> byte_text_ok b = true.
Proof.
  intros Hb.
  assert (Hall : forallb (fun n => byte_text_ok (N.of_nat n)) (seq 0 256)
                 = true) by (vm_compute; reflexivity).
  rewrite forallb_forall in Hall.
  specialize (Hall (N.to_nat b)). rewrite N2Nat.id in Hall.
  apply Hall. apply in_seq. lia.
Qed.

Lemma byte_text (b : N) :
  b < 256 ->
  is_octet (N_to_string b) = true /\
  parse_digits (N_to_string b) = b /\
  N.lxor 255 b < 256.
Proof.
  intros Hb. pose proof (byte_text_ok_all b Hb) as E.
  unfold byte_text_ok in E.
  apply andb_true_iff in E as [E E3]. apply andb_true_iff in E as [E1 E2].
  split; [exact E1|]. split; [now apply N.eqb_eq|now apply N.ltb_lt].
Qed.

Lemma octet_no_dot (o : jstring) : is_octet o = true -> ~ In 46 o.
Proof.
  unfold is_octet. intros E Hi.
  apply andb_true_iff in E as [_ E]. rewrite forallb_forall in E.
  now specialize (E 46 Hi).
Qed.

(** An octet followed by something that is no digit is matched whole. *)
Lemma octet_match (o r x : jstring) (k : jstring -> option jstring) :
  is_octet o = true ->
  match r with [] => True | c :: _ => digit c = false end ->
  k r = Some x ->
  match_here Ip.octet (o ++ r) k = Some x.
Proof.
  unfold is_octet, Ip.octet. intros E Hr Hk.
  apply andb_true_iff in E as [E Hd]. apply andb_true_iff in E as [H1 H3].
  destruct o as [|d1 [|d2 [|d3 [|d4 o]]]]; cbn in H1, H3; try discriminate;
    cbn in Hd; repeat (apply andb_true_iff in Hd as [? Hd]);
    cbn [app match_here];
    repeat match goal with E : digit _ = true |- _ => rewrite E; clear E end;
    destruct r as [|c r]; cbn [match_here]; rewrite ?Hr, ?Hk; reflexivity.
Qed.

Lemma isV4Format_of_octets (a b c d : jstring) :
  is_octet a = true -> is_octet b = true -> is_octet c = true ->
  is_octet d = true ->
  Ip.isV4Format (join 46 [a; b; c; d]) = true.
Proof.
  intros Ha Hb Hc Hd. unfold Ip.isV4Format, Ip.ipv4Regex.
  assert (Hdot : forall (o r x : jstring) (k : jstring -> option jstring),
    is_octet o = true -> k r = Some x ->
    match_here (Seq Ip.octet (Lit (js "."))) (o ++ 46 :: r) k = Some x).
  { intros o r x k Ho Hk. cbn [match_here].
    apply octet_match; [exact Ho|reflexivity|]. cbn. exact Hk. }
  assert (Hseq : forall (p q : regex) (s : jstring) k,
    match_here (Seq p q) s k = match_here p s (fun s' => match_here q s' k))
    by reflexivity.
  assert (Hsome : match_here Ip.ipv4Regex (join 46 [a; b; c; d]) Some
                  = Some []).
  { unfold Ip.ipv4Regex. cbn [join].
    rewrite Hseq. apply Hdot; [exact Ha|].
    rewrite Hseq. apply Hdot; [exact Hb|].
    rewrite Hseq. apply Hdot; [exact Hc|].
    rewrite Hseq. rewrite <- (app_nil_r d).
    apply octet_match; [exact Hd|exact I|reflexivity]. }
  unfold Ip.ipv4Regex in Hsome. now rewrite Hsome.
Qed.

(** [ip.toBuffer] reads back what [ip.toString] prints. *)
Lemma toBuffer_toString (bs : list N) :
  is_ipv4_bytes bs -> Ip.toBuffer (Ip.toString bs) = Some bs.
Proof.
  intros [Hlen Hall].
  destruct bs as [|a [|b [|c [|d [|e bs]]]]]; try discriminate Hlen.
  inversion Hall as [|? ? Ha Hall1]; subst.
  inversion Hall1 as [|? ? Hb Hall2]; subst.
  inversion Hall2 as [|? ? Hc Hall3]; subst.
  inversion Hall3 as [|? ? Hd _]; subst.
  destruct (byte_text a Ha) as (Oa & Pa & _).
  destruct (byte_text b Hb) as (Ob & Pb & _).
  destruct (byte_text c Hc) as (Oc & Pc & _).
  destruct (byte_text d Hd) as (Od & Pd & _).
  unfold Ip.toBuffer, Ip.toString. cbn [map].
  rewrite (isV4Format_of_octets _ _ _ _ Oa Ob Oc Od).
  rewrite split_join; [|discriminate|].
  - cbn [map]. rewrite Pa, Pb, Pc, Pd.
    assert (Hland : forall x, x < 256 -> N.land x 255 = x).
    { intros x Hx. change 255 with (N.ones 8).
      rewrite N.land_ones. apply N.mod_small. exact Hx. }
    now rewrite !Hland.
  - repeat constructor; now apply octet_no_dot.
Qed.

Lemma lor_byte (x y : N) : x < 256 -> y < 256 -> N.lor x y < 256.
Proof.
  intros Hx Hy.
  assert (Hall : forallb (fun n => forallb (fun m =>
                    N.lor (N.of_nat n) (N.of_nat m) <? 256) (seq 0 256))
                   (seq 0 256) = true) by (vm_compute; reflexivity).
  rewrite forallb_forall in Hall.
  specialize (Hall (N.to_nat x)). rewrite forallb_forall in Hall.
  specialize (Hall ltac:(apply in_seq; lia) (N.to_nat y)).
  rewrite !N2Nat.id in Hall. apply N.ltb_lt, Hall. apply in_seq. lia.
Qed.

Lemma broadcast_bytes_ipv4 (mask addr : list N) :
  is_ipv4_bytes mask -> is_ipv4_bytes addr ->
  is_ipv4_bytes (map (N.lxor 255) mask) /\
  is_ipv4_bytes (broadcast_bytes mask addr).
Proof.
  intros [Lm Hm] [La Ha].
  destruct mask as [|m1 [|m2 [|m3 [|m4 [|? ?]]]]]; try discriminate Lm.
  destruct addr as [|a1 [|a2 [|a3 [|a4 [|? ?]]]]]; try discriminate La.
  repeat match goal with
         | H : Forall _ (_ :: _) |- _ => inversion H; clear H; subst
         end.
  split; (split; [reflexivity|]); cbn;
    repeat constructor;
    try (apply lor_byte; [|assumption]);
    now apply byte_text.
Qed.

Lemma windows_entry (mask addr : list N) :
  is_ipv4_bytes mask -> is_ipv4_bytes addr ->
  Ip.isV4Format (Ip.toString mask) = true /\
  Ip.not (Ip.toString mask) = Some (Ip.toString (map (N.lxor 255) mask)) /\
  Ip.or (Ip.toString (map (N.lxor 255) mask)) (Ip.toString addr)
  = Some (Ip.toString (broadcast_bytes mask addr)).
Proof.
  intros Hm Ha.
  destruct (broadcast_bytes_ipv4 mask addr Hm Ha) as [Hn _].
  pose proof (toBuffer_toString mask Hm) as Em.
  split; [|split].
  - unfold Ip.toBuffer in Em. now destruct (Ip.isV4Format (Ip.toString mask)).
  - unfold Ip.not. now rewrite Em.
  - unfold Ip.or. rewrite (toBuffer_toString _ Hn), (toBuffer_toString _ Ha).
    do 2 f_equal. unfold broadcast_bytes.
    destruct Hm as [Lm _], Ha as [La _].
    destruct mask as [|m1 [|m2 [|m3 [|m4 [|? ?]]]]]; try discriminate Lm.
    destruct addr as [|a1 [|a2 [|a3 [|a4 [|? ?]]]]]; try discriminate La.
    reflexivity.
Qed.

(** X15. Given subnet masks themselves (each four bytes in dotted notation)
    and a local IPv4 address, the loop of the Windows branch calls
    [connectUDP] once per mask, in order, with the address whose bytes are
    [(255 xor mask) or address]: every bit the mask leaves clear is set, the
    other bits are those of the local address. For 255.255.255.0 and
    192.168.1.7 this is 192.168.1.255. *)
Theorem windows_loop_computes_the_broadcast_address
    (masks : list (list N)) (addr : list N) (calls : list jstring) :
  Forall is_ipv4_bytes masks -> is_ipv4_bytes addr ->
  DataRelay.connect_matches true (Ip.toString addr)
    (map Ip.toString masks) calls
  = Returned (calls ++
      map (fun mask => Ip.toString (broadcast_bytes mask addr)) masks) /\
  (forall mask, In mask masks ->
     is_ipv4_bytes (broadcast_bytes mask addr) /\
     forall (i : nat) (m a : N),
       mask !! i = Some m -> addr !! i = Some a ->
       exists b, broadcast_bytes mask addr !! i = Some b /\
         forall j, j < 8 ->
           N.testbit b j = negb (N.testbit m j) || N.testbit a j).
Proof.
  intros Hms Ha. split.
  - revert calls. induction Hms as [|mask masks Hm _ IH]; intros calls.
    + cbn. now rewrite app_nil_r.
    + destruct (windows_entry mask addr Hm Ha) as (Ev & En & Eo).
      cbn [map DataRelay.connect_matches]. rewrite Ev, En, Eo, IH.
      now rewrite <- app_assoc.
  - intros mask Hin. rewrite List.Forall_forall in Hms.
    specialize (Hms mask Hin).
    split; [now apply broadcast_bytes_ipv4|].
    intros i m a Hmi Hai. unfold broadcast_bytes.
    exists (N.lor (N.lxor 255 m) a). split.
    + rewrite list_lookup_fmap.
      assert (Hc : combine mask addr !! i = Some (m, a)).
      { clear -Hmi Hai. revert addr i Hmi Hai.
        induction mask as [|m0 mask IH]; intros [|a0 addr] [|i] Hm Ha;
          try discriminate; cbn in *.
        - now injection Hm as ->; injection Ha as ->.
        - now apply IH. }
      now rewrite Hc.
    + intros j Hj. now apply broadcast_byte_bits.
Qed.

(** The mask 255.255.255.0 on the interface 192.168.1.7. *)
Lemma windows_loop_computes_the_broadcast_address_witness :
  DataRelay.connect_matches true (js "192.168.1.7") [js "255.255.255.0"] []
  = Returned [js "192.168.1.255"].
Proof.
  apply (windows_loop_computes_the_broadcast_address
           [[255; 255; 255; 0]] [192; 168; 1; 7] []).
  - repeat constructor; lia.
  - split; [reflexivity|]. repeat constructor; lia.
Defined.

(** X16. The loop of the other branch computes nothing: it calls
    [connectUDP] with exactly the entries of [matches] that are in IPv4
    format, unchanged and in their order, and the local address plays no
    part in the addresses it uses. *)
Theorem other_loop_passes_the_entries_through
    (localIP : jstring) (matches calls : list jstring) :
  DataRelay.connect_matches false localIP matches calls
  = Returned (calls ++ List.filter Ip.isV4Format matches).
Proof.
  revert calls. induction matches as [|m rest IH]; intros calls.
  - cbn. now rewrite app_nil_r.
  - cbn. destruct (Ip.isV4Format m); rewrite IH; [|reflexivity].
    now rewrite <- app_assoc.
Qed.

Lemma includes_spec (needle s : jstring) :
  includes needle s = true <-> exists a b, s = a ++ needle ++ b.
Proof.
  induction s as [|c s IH].
  - cbn. destruct (strip_prefix needle []) as [r|] eqn:E.
    + apply strip_prefix_Some in E. split; [|reflexivity].
      intros _. exists [], r. exact E.
    + split; [discriminate|]. intros (a & b & Hab).
      destruct a; [|discriminate]. destruct needle; [discriminate|].
      discriminate.
  - cbn [includes]. destruct (strip_prefix needle (c :: s)) as [r|] eqn:E.
    + apply strip_prefix_Some in E. split; [|reflexivity].
      intros _. exists [], r. exact E.
    + rewrite IH. split.
      * intros (a & b & ->). now exists (c :: a), b.
      * intros (a & b & Hab). destruct a as [|c' a].
        -- exfalso. cbn in Hab.
           assert (Hs : strip_prefix needle (needle ++ b) = Some b).
           { clear. induction needle as [|x l IHl]; [reflexivity|].
             cbn. now rewrite N.eqb_refl. }
           rewrite <- Hab in Hs. congruence.
        -- injection Hab as -> ->. now exists a, b.
Qed.

(** X17. The platform test is a substring test: [findUDP] runs [ipconfig]
    on every platform whose name holds "win" anywhere, so not only on win32
    but on darwin and cygwin too; it runs [ifconfig] exactly on the names
    without "win", such as linux. *)
Theorem platform_test_is_a_substring_test (platform : jstring) :
  (DataRelay.discovery_command platform = js "ipconfig" <->
   exists a b, platform = a ++ js "win" ++ b) /\
  (DataRelay.discovery_command platform = js "ifconfig" <->
   ~ exists a b, platform = a ++ js "win" ++ b) /\
  DataRelay.discovery_command (js "darwin") = js "ipconfig" /\
  DataRelay.discovery_command (js "cygwin") = js "ipconfig" /\
  DataRelay.discovery_command (js "linux") = js "ifconfig".
Proof.
  unfold DataRelay.discovery_command. rewrite <- includes_spec.
  destruct (includes (js "win") platform); repeat split;
    try discriminate; try reflexivity; intros; congruence.
Qed.

(** *** One discovery attempt, continued *)

Section AttemptOutcomeFacts.
Context (broadcastIP localIP port : jstring).

Lemma run_events_app (es1 es2 : list DataRelay.event)
    (a : DataRelay.attempt) :
  DataRelay.run_events broadcastIP localIP port (es1 ++ es2) a
  = DataRelay.run_events broadcastIP localIP port es2
      (DataRelay.run_events broadcastIP localIP port es1 a).
Proof.
  revert a. induction es1 as [|e es1 IH]; intros a; [reflexivity|].
  cbn. destruct (DataRelay.deliverable e a); apply IH.
Qed.

Lemma handle_keeps_outcome_inv (e : DataRelay.event)
    (a : DataRelay.attempt) :
  attempt_outcome_inv a -> DataRelay.deliverable e a = true ->
  attempt_outcome_inv
    (state_of (DataRelay.handle broadcastIP localIP port e a)).
Proof.
  unfold attempt_outcome_inv. intros Hinv Hd.
  destruct a as [ho li uo ta sp cl ts co dg].
  destruct e as [lp|msg addr|[err|]| |];
    unfold DataRelay.handle, DataRelay.on_message, DataRelay.on_timeout,
      DataRelay.on_error, DataRelay.server_close, DataRelay.disarm,
      DataRelay.on_listening, DataRelay.on_close, DataRelay.on_sent,
      DataRelay.complete_send;
    cbn in *;
    destruct ho, li, uo, ta; cbn in *; try discriminate Hd;
    try (exfalso; intuition discriminate);
    destruct Hinv as (H1 & H2 & H3 & H4);
    try (destruct (H1 eq_refl) as [-> ->]);
    cbn; repeat split; intros; try discriminate; try lia; try congruence;
    auto.
Qed.

Lemma run_events_outcome_inv (es : list DataRelay.event)
    (a : DataRelay.attempt) :
  attempt_outcome_inv a ->
  attempt_outcome_inv (DataRelay.run_events broadcastIP localIP port es a).
Proof.
  revert a. induction es as [|e es IH]; intros a Ha; [exact Ha|].
  cbn. destruct (DataRelay.deliverable e a) eqn:Hd; [|now apply IH].
  apply IH. now apply handle_keeps_outcome_inv.
Qed.

Lemma handle_keeps_datagram_inv (e : DataRelay.event)
    (a : DataRelay.attempt) :
  datagram_inv broadcastIP localIP port a ->
  DataRelay.deliverable e a = true ->
  datagram_inv broadcastIP localIP port
    (state_of (DataRelay.handle broadcastIP localIP port e a)).
Proof.
  unfold datagram_inv. intros Hinv Hd.
  destruct a as [ho li uo ta sp cl ts co dg].
  destruct e as [lp|msg addr|[err|]| |];
    unfold DataRelay.handle, DataRelay.on_message, DataRelay.on_timeout,
      DataRelay.on_error, DataRelay.server_close, DataRelay.disarm,
      DataRelay.on_listening, DataRelay.on_close, DataRelay.on_sent,
      DataRelay.complete_send;
    cbn in *;
    destruct ho, li, uo; cbn in *; try discriminate Hd; try exact Hinv.
  all: rewrite Hinv; eexists; reflexivity.
Qed.

Lemma run_events_datagram_inv (es : list DataRelay.event)
    (a : DataRelay.attempt) :
  datagram_inv broadcastIP localIP port a ->
  datagram_inv broadcastIP localIP port
    (DataRelay.run_events broadcastIP localIP port es a).
Proof.
  revert a. induction es as [|e es IH]; intros a Ha; [exact Ha|].
  cbn. destruct (DataRelay.deliverable e a) eqn:Hd; [|now apply IH].
  apply IH. now apply handle_keeps_datagram_inv.
Qed.
End AttemptOutcomeFacts.

(** X18. An attempt sends at most one discovery datagram, whatever the
    schedule: none before the socket listens, and from then on exactly the
    one sent by the ['listening'] callback, which carries the local address,
    a colon and the local port and goes to the broadcast address on the
    configured port. Replies, errors and the timer never send anything. *)
Theorem attempt_sends_one_datagram
    (broadcastIP localIP port : jstring) (es : list DataRelay.event) :
  let a := DataRelay.run_events broadcastIP localIP port es
             DataRelay.connectUDP in
  (length (DataRelay.datagrams a) <= 1)%nat /\
  (DataRelay.listening a = false -> DataRelay.datagrams a = []) /\
  (DataRelay.listening a = true ->
     exists local_port,
       DataRelay.datagrams a
       = [(localIP ++ js ":" ++ local_port, port, broadcastIP)]).
Proof.
  cbn zeta.
  pose proof (run_events_datagram_inv broadcastIP localIP port es
                DataRelay.connectUDP eq_refl) as Hinv.
  unfold datagram_inv in Hinv.
  destruct (DataRelay.listening _).
  - destruct Hinv as (lp & ->). split; [cbn; lia|].
    split; [discriminate|]. intros _. now exists lp.
  - rewrite Hinv. split; [cbn; lia|]. split; [reflexivity|discriminate].
Qed.

(** X19. The outcomes of an attempt exclude each other, whatever the
    schedule: [connectTCP] is called at most once (the first reply wins, a
    second one finds the socket closed), an attempt that connected never
    reports the discovery timeout and an attempt that reported it never
    connects; as long as the socket is open neither has happened; and
    [udp_open] is true exactly while the socket is open and listening. *)
Theorem attempt_outcomes_exclude_each_other
    (broadcastIP localIP port : jstring) (es : list DataRelay.event) :
  let a := DataRelay.run_events broadcastIP localIP port es
             DataRelay.connectUDP in
  (length (DataRelay.connects a) <= 1)%nat /\
  (DataRelay.connects a <> [] -> DataRelay.timeout_statuses a = 0%nat) /\
  (DataRelay.timeout_statuses a <> 0%nat -> DataRelay.connects a = []) /\
  (DataRelay.handle_open a = true ->
     DataRelay.connects a = [] /\ DataRelay.timeout_statuses a = 0%nat) /\
  DataRelay.udp_open a = DataRelay.handle_open a && DataRelay.listening a.
Proof.
  cbn zeta.
  assert (Hinit : attempt_outcome_inv DataRelay.connectUDP).
  { unfold attempt_outcome_inv. cbn. repeat split; try lia; congruence. }
  pose proof (run_events_outcome_inv broadcastIP localIP port es
                DataRelay.connectUDP Hinit) as (H1 & H2 & H3 & H4).
  split; [exact H2|]. split; [exact H3|]. split; [|split; assumption].
  intros Hs. destruct (DataRelay.connects _) eqn:E; [reflexivity|].
  exfalso. apply Hs, H3. discriminate.
Qed.

(** A closed socket stays closed, and nothing is decided any more. *)
Lemma run_events_closed (broadcastIP localIP port : jstring)
    (es : list DataRelay.event) (a : DataRelay.attempt) :
  DataRelay.handle_open a = false -> DataRelay.udp_open a = false ->
  let a' := DataRelay.run_events broadcastIP localIP port es a in
  DataRelay.handle_open a' = false /\
  DataRelay.closes a' = DataRelay.closes a /\
  DataRelay.timeout_statuses a' = DataRelay.timeout_statuses a /\
  DataRelay.connects a' = DataRelay.connects a.
Proof.
  cbn zeta. revert a. induction es as [|e es IH]; intros a Ho Hu;
    [now repeat split|].
  cbn [DataRelay.run_events].
  destruct e as [lp|msg addr|err| |]; cbn [DataRelay.deliverable];
    rewrite ?Ho; cbn [andb]; try (now apply IH).
  - destruct (DataRelay.send_pending a); [|now apply IH].
    destruct (IH (state_of (DataRelay.handle broadcastIP localIP port
                              (DataRelay.Sent err) a)))
      as (H1 & H2 & H3 & H4); [now destruct err..|].
    rewrite H1, H2, H3, H4. now destruct err.
  - destruct (DataRelay.timer_armed a); [|now apply IH].
    unfold DataRelay.handle, DataRelay.on_timeout. cbn. rewrite Hu.
    cbn [state_of].
    destruct (IH (DataRelay.disarm a)) as (H1 & H2 & H3 & H4);
      [exact Ho|exact Hu|].
    now rewrite H1, H2, H3, H4.
Qed.

(** X20. A socket error ends the attempt silently: when the ['error']
    callback runs on the open socket it closes it, and whatever the schedule
    before and after, the attempt then has closed its socket once, has
    raised no discovery-timeout status and has opened no connection. *)
Theorem socket_error_ends_the_attempt_silently
    (broadcastIP localIP port : jstring)
    (before later : list DataRelay.event) :
  DataRelay.handle_open
    (DataRelay.run_events broadcastIP localIP port before
       DataRelay.connectUDP) = true ->
  let a := DataRelay.run_events broadcastIP localIP port
             (before ++ DataRelay.SocketError :: later)
             DataRelay.connectUDP in
  DataRelay.handle_open a = false /\
  DataRelay.closes a = 1%nat /\
  DataRelay.timeout_statuses a = 0%nat /\
  DataRelay.connects a = [].
Proof.
  intros Ho. cbn zeta. rewrite run_events_app.
  assert (Hinit : attempt_outcome_inv DataRelay.connectUDP).
  { unfold attempt_outcome_inv. cbn. repeat split; try lia; congruence. }
  pose proof (run_events_outcome_inv broadcastIP localIP port before
                DataRelay.connectUDP Hinit) as (H1 & _).
  pose proof (run_events_inv broadcastIP localIP port before
                DataRelay.connectUDP attempt_inv_init) as (G1 & _).
  destruct (H1 Ho) as [Hc Hs]. specialize (G1 Ho).
  cbn [DataRelay.run_events DataRelay.deliverable]. rewrite Ho.
  unfold DataRelay.handle, DataRelay.on_error, DataRelay.server_close.
  rewrite Ho. cbn [state_of].
  match goal with |- context [DataRelay.run_events _ _ _ later ?a1] =>
    destruct (run_events_closed broadcastIP localIP port later a1
                eq_refl eq_refl) as (E1 & E2 & E3 & E4) end.
  rewrite E1, E2, E3, E4. cbn. rewrite G1, Hs, Hc. now repeat split.
Qed.

(** A bind error before the socket listens. *)
Lemma socket_error_ends_the_attempt_silently_witness :
  let a := Scenario.deliver
             [DataRelay.SocketError; DataRelay.Listening (js "50000");
              DataRelay.Timeout] in
  DataRelay.closes a = 1%nat /\ DataRelay.timeout_statuses a = 0%nat.
Proof.
  destruct (socket_error_ends_the_attempt_silently
              (js "192.168.1.255") (js "192.168.1.7") (js "1234")
              [] [DataRelay.Listening (js "50000"); DataRelay.Timeout]
              eq_refl) as (_ & Hc & Hs & _).
  split; [exact Hc|exact Hs].
Defined.

(** *** [init] and [connectTCP] *)

Lemma find_none_filter {A} (p : A -> bool) (l : list A) :
  List.find p l = None -> List.filter (fun x => negb (p x)) l = l.
Proof.
  induction l as [|x l IH]; [reflexivity|]. cbn.
  destruct (p x); [discriminate|]. intros E. cbn. now rewrite IH.
Qed.

Lemma removed_if_found (n : jstring) (cs : list NetworkManager.connection) :
  match NetworkManager.getConnectionByName n cs with
  | Some _ => NetworkManager.removeAllConnections n cs
  | None => cs
  end = NetworkManager.removeAllConnections n cs.
Proof.
  unfold NetworkManager.getConnectionByName,
    NetworkManager.removeAllConnections.
  destruct (List.find _ cs) eqn:E; [reflexivity|].
  symmetry. now apply find_none_filter.
Qed.

Lemma filter_negb_twice {A} (p : A -> bool) (l : list A) :
  List.filter (fun x => negb (p x)) (List.filter (fun x => negb (p x)) l)
  = List.filter (fun x => negb (p x)) l /\
  List.filter p (List.filter (fun x => negb (p x)) l) = [].
Proof.
  induction l as [|x l [IH1 IH2]]; [split; reflexivity|]. cbn.
  destruct (p x) eqn:E; cbn; rewrite ?E; cbn; [now split|].
  now rewrite IH1, IH2.
Qed.

Lemma filter_rebuilt (n : jstring) (cs : list NetworkManager.connection)
    (c : NetworkManager.connection) :
  NetworkManager.name c = n ->
  let is_n := fun x => bool_decide (NetworkManager.name x = n) in
  let cs' := List.filter (fun x => negb (is_n x)) cs ++ [c] in
  List.filter is_n cs' = [c] /\
  List.filter (fun x => negb (is_n x)) cs'
  = List.filter (fun x => negb (is_n x)) cs.
Proof.
  intros Hc. cbn zeta. rewrite !List.filter_app.
  destruct (filter_negb_twice
              (fun x => bool_decide (NetworkManager.name x = n)) cs)
    as [E1 E2].
  rewrite E1, E2. cbn. rewrite bool_decide_true by exact Hc.
  cbn. split; [reflexivity|apply app_nil_r].
Qed.

(** Whatever the platform, the outcome of the command and the local
    address, [findUDP] has called [connectUDP] not once. *)
Lemma findUDP_no_calls (platform : jstring) (result : DataRelay.exec_result)
    (localIP : jstring) :
  state_of (DataRelay.findUDP platform result localIP) = [].
Proof.
  unfold DataRelay.findUDP, match_g. destruct result as [|stdout];
    [reflexivity|].
  destruct (includes (js "win") platform).
  - destruct (scan DataRelay.subnet_mask_regex stdout 0) as [|m l] eqn:E;
      [reflexivity|].
    rewrite connect_matches_none_v4; [reflexivity|]. intros x Hx.
    apply (subnet_mask_match_not_v4 x stdout 0%nat). now rewrite E.
  - destruct (scan DataRelay.bcast_regex stdout 0) as [|m l] eqn:E;
      [reflexivity|].
    rewrite connect_matches_none_v4; [reflexivity|]. intros x Hx.
    apply (bcast_match_not_v4 x stdout 0%nat). now rewrite E.
Qed.

Section InitFacts.
Context `{Runtime}.
Context (cfg : DataRelay.config).

Lemma connectTCP_connections (h p : jsval) (l : DataRelay.link) :
  DataRelay.connections (DataRelay.connectTCP cfg h p l)
  = DataRelay.others (js "data_relay") l ++
    [{| NetworkManager.name := js "data_relay";
        NetworkManager.host := h;
        NetworkManager.port := p;
        NetworkManager.idle_timeout :=
          Some (DataRelay.datarelay_timeout cfg) |}].
Proof.
  unfold DataRelay.connectTCP. cbn [DataRelay.connections].
  now rewrite removed_if_found.
Qed.

Lemma connectTCP_named (h p : jsval) (l : DataRelay.link) :
  DataRelay.named (js "data_relay") (DataRelay.connectTCP cfg h p l)
  = [{| NetworkManager.name := js "data_relay";
        NetworkManager.host := h;
        NetworkManager.port := p;
        NetworkManager.idle_timeout :=
          Some (DataRelay.datarelay_timeout cfg) |}] /\
  DataRelay.others (js "data_relay") (DataRelay.connectTCP cfg h p l)
  = DataRelay.others (js "data_relay") l.
Proof.
  unfold DataRelay.named, DataRelay.others at 1.
  rewrite connectTCP_connections, !List.filter_app.
  unfold DataRelay.others.
  destruct (filter_negb_twice
              (fun c => bool_decide (NetworkManager.name c = js "data_relay"))
              (DataRelay.connections l)) as [E1 E2].
  rewrite E1, E2. cbn. split; [reflexivity|apply app_nil_r].
Qed.
End InitFacts.

(** X21. [connectTCP] leaves exactly one connection named data_relay,
    whatever the registry held before: every earlier connection of that name
    is removed, the new one leads to the given host and port and carries
    the configured idle timeout, and the connections under other names are
    kept in their order. Connecting twice leaves one connection, the
    second. *)
Theorem connectTCP_leaves_one_data_relay `{Runtime}
    (cfg : DataRelay.config) (h p h' p' : jsval) (l : DataRelay.link) :
  let l1 := DataRelay.connectTCP cfg h p l in
  let l2 := DataRelay.connectTCP cfg h' p' l1 in
  DataRelay.named (js "data_relay") l1
  = [{| NetworkManager.name := js "data_relay";
        NetworkManager.host := h;
        NetworkManager.port := p;
        NetworkManager.idle_timeout :=
          Some (DataRelay.datarelay_timeout cfg) |}] /\
  DataRelay.others (js "data_relay") l1
  = DataRelay.others (js "data_relay") l /\
  DataRelay.connections l2
  = DataRelay.others (js "data_relay") l ++
    [{| NetworkManager.name := js "data_relay";
        NetworkManager.host := h';
        NetworkManager.port := p';
        NetworkManager.idle_timeout :=
          Some (DataRelay.datarelay_timeout cfg) |}].
Proof.
  cbn zeta. destruct (connectTCP_named cfg h p l) as [E1 E2].
  split; [exact E1|]. split; [exact E2|].
  now rewrite connectTCP_connections, E2.
Qed.

(** X22. In legacy mode (the configured flag equal to true) [init] returns
    with exactly one data_relay connection, the one to the configured legacy
    host and port, whatever was registered before; the other connections
    are kept, no discovery is started, and calling [init] again changes
    nothing. *)
Theorem init_in_legacy_mode `{Runtime}
    (cfg : DataRelay.config) (platform : jstring)
    (result : DataRelay.exec_result) (localIP : jstring)
    (l : DataRelay.link) :
  DataRelay.equals_true (DataRelay.datarelay_legacy_mode cfg) = true ->
  exists l',
    DataRelay.init cfg platform result localIP l = Returned l' /\
    DataRelay.named (js "data_relay") l'
    = [{| NetworkManager.name := js "data_relay";
          NetworkManager.host := DataRelay.datarelay_legacy_host cfg;
          NetworkManager.port := DataRelay.datarelay_legacy_port cfg;
          NetworkManager.idle_timeout :=
            Some (DataRelay.datarelay_timeout cfg) |}] /\
    DataRelay.others (js "data_relay") l'
    = DataRelay.others (js "data_relay") l /\
    DataRelay.discoveries l' = DataRelay.discoveries l /\
    DataRelay.init cfg platform result localIP l' = Returned l'.
Proof.
  intros Hmode.
  assert (Hinit : forall l0,
    DataRelay.init cfg platform result localIP l0
    = Returned
        {| DataRelay.connections :=
             DataRelay.others (js "data_relay") l0 ++
             [{| NetworkManager.name := js "data_relay";
                 NetworkManager.host := DataRelay.datarelay_legacy_host cfg;
                 NetworkManager.port := DataRelay.datarelay_legacy_port cfg;
                 NetworkManager.idle_timeout :=
                   Some (DataRelay.datarelay_timeout cfg) |}];
           DataRelay.discoveries := DataRelay.discoveries l0 |}).
  { intros l0. unfold DataRelay.init. rewrite Hmode. f_equal.
    unfold DataRelay.connectTCP.
    destruct (NetworkManager.getConnectionByName (js "data_relay")
                (DataRelay.connections l0)) eqn:E;
      cbn [DataRelay.connections DataRelay.discoveries].
    - rewrite removed_if_found.
      unfold DataRelay.others.
      destruct (filter_negb_twice
        (fun c => bool_decide (NetworkManager.name c = js "data_relay"))
        (DataRelay.connections l0)) as [E1 _].
      unfold NetworkManager.removeAllConnections. now rewrite E1.
    - rewrite E. unfold DataRelay.others.
      unfold NetworkManager.getConnectionByName in E.
      now rewrite (find_none_filter _ _ E). }
  rewrite Hinit. eexists. split; [reflexivity|].
  destruct (filter_rebuilt (js "data_relay") (DataRelay.connections l)
    {| NetworkManager.name := js "data_relay";
       NetworkManager.host := DataRelay.datarelay_legacy_host cfg;
       NetworkManager.port := DataRelay.datarelay_legacy_port cfg;
       NetworkManager.idle_timeout :=
         Some (DataRelay.datarelay_timeout cfg) |} eq_refl) as [F1 F2].
  split; [exact F1|]. split; [exact F2|]. split; [reflexivity|].
  rewrite Hinit. cbn [DataRelay.discoveries].
  match goal with |- context [DataRelay.others _ ?l1 ++ _] =>
    assert (Ho : DataRelay.others (js "data_relay") l1
                 = DataRelay.others (js "data_relay") l) by exact F2
  end.
  now rewrite Ho.
Qed.

(** X23. In discovery mode (the flag not equal to true) [init] leaves the
    station without a data_relay connection: the existing ones are removed,
    and since the discovery never reaches [connectUDP], on no platform and
    for no outcome of the command, no attempt is started and none can lead
    to a new connection. The connections under other names are kept. *)
Theorem init_in_discovery_mode_leaves_no_connection `{Runtime}
    (cfg : DataRelay.config) (platform : jstring)
    (result : DataRelay.exec_result) (localIP : jstring)
    (l : DataRelay.link) :
  DataRelay.equals_true (DataRelay.datarelay_legacy_mode cfg) = false ->
  let l' := state_of (DataRelay.init cfg platform result localIP l) in
  DataRelay.named (js "data_relay") l' = [] /\
  DataRelay.others (js "data_relay") l'
  = DataRelay.others (js "data_relay") l /\
  DataRelay.discoveries l' = DataRelay.discoveries l.
Proof.
  intros Hmode. cbn zeta. unfold DataRelay.init. rewrite Hmode.
  pose proof (findUDP_no_calls platform result localIP) as Hno.
  assert (Hcs : DataRelay.connections
    match NetworkManager.getConnectionByName (js "data_relay")
            (DataRelay.connections l) with
    | Some _ =>
        {| DataRelay.connections :=
             NetworkManager.removeAllConnections (js "data_relay")
               (DataRelay.connections l);
           DataRelay.discoveries := DataRelay.discoveries l |}
    | None => l
    end = DataRelay.others (js "data_relay") l /\
    DataRelay.discoveries
    match NetworkManager.getConnectionByName (js "data_relay")
            (DataRelay.connections l) with
    | Some _ =>
        {| DataRelay.connections :=
             NetworkManager.removeAllConnections (js "data_relay")
               (DataRelay.connections l);
           DataRelay.discoveries := DataRelay.discoveries l |}
    | None => l
    end = DataRelay.discoveries l).
  { pose proof (removed_if_found (js "data_relay") (DataRelay.connections l))
      as Hr.
    destruct (NetworkManager.getConnectionByName (js "data_relay")
                (DataRelay.connections l)); cbn; split; try reflexivity.
    exact Hr. }
  destruct Hcs as [Hc Hd].
  destruct (filter_negb_twice
    (fun c => bool_decide (NetworkManager.name c = js "data_relay"))
    (DataRelay.connections l)) as [E1 E2].
  destruct (DataRelay.findUDP platform result localIP) as [calls|e calls];
    cbn in Hno; subst calls; cbn [state_of];
    unfold DataRelay.named, DataRelay.others at 1;
    cbn [DataRelay.connections DataRelay.discoveries];
    rewrite Hc, Hd, app_nil_r; unfold DataRelay.others;
    rewrite E1, E2; repeat split.
Qed.

Section InitExamples.
Local Existing Instance Sample.runtime.

(** The stale link, in legacy mode. *)
Lemma init_in_legacy_mode_witness :
  DataRelay.connections
    (state_of (DataRelay.init Scenario.legacy_config (js "linux")
                 (DataRelay.ExecOk Scenario.ifconfig_output)
                 (js "192.168.1.7") Scenario.stale_link))
  = [NetworkManager.addConnection (js "multi_echo")
       (VStr (js "10.0.0.2")) (VNum (num_of_Z 2));
     NetworkManager.setTimeout (VNum (num_of_Z 5000))
       (NetworkManager.addConnection (js "data_relay")
          (VStr (js "192.168.1.103")) (VNum (num_of_Z 1234)))].
Proof.
  destruct (init_in_legacy_mode Scenario.legacy_config (js "linux")
              (DataRelay.ExecOk Scenario.ifconfig_output)
              (js "192.168.1.7") Scenario.stale_link eq_refl)
    as (l' & E & _).
  rewrite E. injection E as <-. reflexivity.
Defined.

(** The stale link, in discovery mode. *)
Lemma init_in_discovery_mode_leaves_no_connection_witness :
  DataRelay.connections
    (state_of (DataRelay.init Scenario.discovery_config (js "linux")
                 (DataRelay.ExecOk Scenario.ifconfig_output)
                 (js "192.168.1.7") Scenario.stale_link))
  = [NetworkManager.addConnection (js "multi_echo")
       (VStr (js "10.0.0.2")) (VNum (num_of_Z 2))].
Proof.
  destruct (init_in_discovery_mode_leaves_no_connection
              Scenario.discovery_config (js "linux")
              (DataRelay.ExecOk Scenario.ifconfig_output)
              (js "192.168.1.7") Scenario.stale_link eq_refl)
    as (_ & Ho & _).
  vm_compute. reflexivity.
Defined.

End InitExamples.

Section StreamRunExamples.
Local Existing Instance Sample.runtime.

(** A line feed as first frame, then the header line. *)
Lemma white_first_frame_becomes_the_header_list_witness :
  TelemetryData.headers (DataRelay.telemetry
    (DataRelay.run Scenario.no_listeners
       [(1%Z, VStr [10]); (2%Z, VStr (js "lat,lon,alt"))] Scenario.fresh))
  = [[]].
Proof.
  destruct (white_first_frame_becomes_the_header_list Scenario.no_listeners
              1%Z [10] Scenario.fresh) as (w1 & E1 & Hh & Hnext);
    [discriminate|reflexivity|reflexivity|].
  cbn [DataRelay.run]. rewrite E1. cbn [state_of].
  rewrite (Hnext 2%Z (VStr (js "lat,lon,alt")) eq_refl).
  rewrite parseData_returns. cbn. exact Hh.
Defined.

(** An empty string, undefined and null in a row. *)
Lemma blank_frames_only_report_witness :
  let w := DataRelay.run Scenario.no_listeners
             [(1%Z, VStr []); (2%Z, VUndefined); (3%Z, VNull)]
             Scenario.with_headers in
  DataRelay.telemetry w = DataRelay.telemetry Scenario.with_headers /\
  length (DataRelay.effects w) = 3%nat.
Proof.
  destruct (blank_frames_only_report Scenario.no_listeners
              [(1%Z, VStr []); (2%Z, VUndefined); (3%Z, VNull)]
              Scenario.with_headers) as [Ht He].
  { repeat constructor. }
  cbn zeta. rewrite Ht, He. split; reflexivity.
Defined.

End StreamRunExamples.

(** X25. [sendCommand] and [sendProtectedCommand] do not look for the
    connection themselves: without a data_relay connection each of them
    throws a TypeError and leaves the state as it was, nothing being logged,
    where the three guarded senders return; with a connection each writes
    one line, [sendProtectedCommand] the command, a colon, the configured
    password and "\r\n". *)
Theorem unguarded_senders_throw_without_connection `{Runtime}
    (password value : jsval) (command : jstring) (s : Commands.env) :
  (Commands.data_relay (Commands.net s) = None ->
     (exists e, Commands.sendCommand command value s = Threw e s) /\
     (exists e, Commands.sendProtectedCommand password command s
                = Threw e s) /\
     forall r, returned (Commands.send r s) = true) /\
  (forall w, Commands.data_relay (Commands.net s) = Some w ->
     Commands.written (state_of (Commands.sendCommand command value s))
     = w ++ [command ++ js ":" ++ ToString value ++ [13; 10]] /\
     Commands.written
       (state_of (Commands.sendProtectedCommand password command s))
     = w ++ [command ++ js ":" ++ ToString password ++ [13; 10]]).
Proof.
  split.
  - intros E. unfold Commands.sendCommand, Commands.sendProtectedCommand.
    rewrite E. split; [eexists; reflexivity|].
    split; [eexists; reflexivity|].
    intros r. rewrite send_cases, E. reflexivity.
  - intros w E. unfold Commands.sendCommand, Commands.sendProtectedCommand,
      Commands.written.
    rewrite E. cbn. split; reflexivity.
Qed.
